(** * Video retrieval UI: search-and-export pipeline

    A shallow embedding of the non-GUI logic of [video_retrieval_ui_v2.py]:
    the query normaliser ([remove_punctuations]), the linear metadata search
    ([search_database_text], [call_backend_text]), the result set with its
    selection ([_update_results], [toggle_selection], [select_all],
    [clear_selection]) and the CSV export ([generate_csv],
    [create_csv_file]).

    Python [str] values are modelled as [string]; the character-level
    library functions ([lower], [strip], [split], [string.punctuation]) are
    modelled on ASCII text.  Python lists are [list]s, the insertion-ordered
    [dict] used for TRAKE grouping is an association list. *)

From Stdlib Require Import List String Ascii Bool Arith Lia.
From Stdlib Require Import ZArith DecimalString Permutation Sorted.
Import ListNotations.

Open Scope string_scope.
Open Scope list_scope.

(* ================================================================== *)
(** ** Python string primitives *)

(** [x in xs] for a list of strings. *)
Definition mem (x : string) (xs : list string) : bool :=
  existsb (String.eqb x) xs.

(** [str.lower] on ASCII letters. *)
Definition is_upper (c : ascii) : bool :=
  (65 <=? nat_of_ascii c)%nat && (nat_of_ascii c <=? 90)%nat.

Definition lower_char (c : ascii) : ascii :=
  if is_upper c then ascii_of_nat (nat_of_ascii c + 32) else c.

Fixpoint lower (s : string) : string :=
  match s with
  | EmptyString => EmptyString
  | String c t => String (lower_char c) (lower t)
  end.

(** [s.startswith(p)]. *)
Fixpoint startswith (s p : string) {struct p} : bool :=
  match p, s with
  | EmptyString, _ => true
  | String _ _, EmptyString => false
  | String b p', String a s' => Ascii.eqb a b && startswith s' p'
  end.

(** [s.endswith(suf)]: some tail of [s] is [suf]. *)
Fixpoint endswith (s suf : string) : bool :=
  String.eqb s suf ||
  match s with
  | EmptyString => false
  | String _ t => endswith t suf
  end.

(** [needle in hay] for two strings: substring containment. *)
Fixpoint py_in (needle hay : string) : bool :=
  startswith hay needle ||
  match hay with
  | EmptyString => false
  | String _ t => py_in needle t
  end.

(** [s.rfind(c)] for a one-character [c]; [None] stands for [-1]. *)
Fixpoint rfind (c : ascii) (s : string) : option nat :=
  match s with
  | EmptyString => None
  | String a t =>
      match rfind c t with
      | Some i => Some (S i)
      | None => if Ascii.eqb a c then Some 0 else None
      end
  end.

(** Does the slice [p[from:to]] hold a character other than [c]? *)
Definition has_other_than (c : ascii) (p : string) (from to : nat) : bool :=
  existsb (fun a => negb (Ascii.eqb a c))
          (list_ascii_of_string (substring from (to - from) p)).

(** [os.path.splitext] (posixpath: separator [/], extension separator [.]).
    The extension starts at the last dot, unless that dot comes before the
    last separator or only dots stand between the separator and it. *)
Definition splitext (p : string) : string * string :=
  let filenameIndex := match rfind "/" p with Some i => S i | None => 0 end in
  match rfind "." p with
  | Some dotIndex =>
      if (filenameIndex <=? dotIndex)%nat && has_other_than "." p filenameIndex dotIndex
      then (substring 0 dotIndex p, substring dotIndex (String.length p - dotIndex) p)
      else (p, "")
  | None => (p, "")
  end.

(** [os.path.join(a, b)] (posixpath, two components). *)
Definition path_join (a b : string) : string :=
  if startswith b "/" then b
  else if String.eqb a "" || endswith a "/" then (a ++ b)%string
  else (a ++ "/" ++ b)%string.

(** Whitespace as [str.isspace] sees it on ASCII: tab, LF, VT, FF, CR,
    the four separators 0x1c-0x1f and the space. *)
Definition is_space (c : ascii) : bool :=
  let n := nat_of_ascii c in
  ((9 <=? n)%nat && (n <=? 13)%nat) || ((28 <=? n)%nat && (n <=? 32)%nat).

Fixpoint lstrip_chars (s : list ascii) : list ascii :=
  match s with
  | [] => []
  | c :: t => if is_space c then lstrip_chars t else s
  end.

Fixpoint rstrip_chars (s : list ascii) : list ascii :=
  match s with
  | [] => []
  | c :: t =>
      match rstrip_chars t with
      | [] => if is_space c then [] else [c]
      | r => c :: r
      end
  end.

Definition strip_chars (s : list ascii) : list ascii :=
  rstrip_chars (lstrip_chars s).

(** [s.strip()]. *)
Definition strip (s : string) : string :=
  string_of_list_ascii (strip_chars (list_ascii_of_string s)).

(** [s.split()]: the maximal runs of non-whitespace characters, in order. *)
Fixpoint split_chars (s : list ascii) : list (list ascii) :=
  match s with
  | [] => []
  | c :: t =>
      if is_space c then split_chars t
      else match t with
           | [] => [[c]]
           | c' :: _ =>
               if is_space c' then [c] :: split_chars t
               else match split_chars t with
                    | w :: ws => (c :: w) :: ws
                    | [] => [[c]]
                    end
           end
  end.

(** [' '.join(words)]. *)
Fixpoint join_chars (words : list (list ascii)) : list ascii :=
  match words with
  | [] => []
  | [w] => w
  | w :: ws => w ++ " "%char :: join_chars ws
  end.

(** [string.punctuation]; the double quote is character 34. *)
Definition punctuation : list ascii :=
  "!"%char :: ascii_of_nat 34 ::
  list_ascii_of_string "#$%&'()*+,-./:;<=>?@[\]^_`{|}~".

Definition is_punctuation (c : ascii) : bool :=
  existsb (Ascii.eqb c) punctuation.

(** Decimal rendering of a natural number, and [f"{n:0wd}"]. *)
Definition dec (n : nat) : string :=
  NilZero.string_of_uint (Nat.to_uint n).

Definition zfill (w : nat) (s : string) : string :=
  (string_of_list_ascii (repeat "0"%char (w - String.length s)) ++ s)%string.

(** A name as a directory listing of ordinary files gives it: no
    separator inside, no leading dot. *)
Definition plain_name (f : string) : bool :=
  match rfind "/" f with None => true | Some _ => false end
  && match f with
     | String c _ => negb (Ascii.eqb c ".")
     | EmptyString => false
     end.

Fixpoint nodupb (l : list string) : bool :=
  match l with
  | [] => true
  | x :: t => negb (mem x t) && nodupb t
  end.

(** The distinct elements of a list, each at its first occurrence. *)
Fixpoint distinct (l : list string) : list string :=
  match l with
  | [] => []
  | x :: t => x :: filter (fun y => negb (String.eqb y x)) (distinct t)
  end.

(** A word as [split] produces them: not empty, free of whitespace. *)
Definition word (P : ascii -> Prop) (w : list ascii) : Prop :=
  w <> [] /\ Forall (fun c => is_space c = false /\ P c) w.

(** A character outside [string.punctuation]. *)
Definition not_punctuation (c : ascii) : Prop := is_punctuation c = false.

(* ================================================================== *)
(** ** Query normaliser *)

(** Lines 612 and 615 of [remove_punctuations], on the characters of the
    stripped text. *)
Definition clean_chars (current_text : list ascii) : list ascii :=
  join_chars (split_chars (filter (fun c => negb (is_punctuation c)) current_text)).

(** The pure normalisation: strip, drop punctuation, re-join the words. *)
Definition normalize (text : string) : string :=
  string_of_list_ascii (clean_chars (strip_chars (list_ascii_of_string text))).

(** What a message box shows. *)
Inductive dialog : Type :=
  | ShowInfo (title message : string)
  | ShowWarning (title message : string)
  | ShowError (title message : string).

(** [text_entry.get('1.0', tk.END)]: the content of the text box followed by
    the newline Tk appends. *)
Definition text_entry_get (box : string) : string :=
  (box ++ String (ascii_of_nat 10) "")%string.

(** [remove_punctuations] as a transition on the content of the query box:
    the dialog shown, if any, and the new content. *)
Definition remove_punctuations (box : string) : option dialog * string :=
  let current_text := strip (text_entry_get box) in
  if String.eqb current_text "" then
    (Some (ShowInfo "Info" "No text to process"), box)
  else
    (None, string_of_list_ascii (clean_chars (list_ascii_of_string current_text))).

(* ================================================================== *)
(** ** Dataset store *)

(** The library side of a metadata document: the raw content of a file, the
    value [json.load] parses it to (if it parses), and the text [str] renders
    a parsed value to.  The search only uses these three operations. *)
Class PyJson : Type := {
  Content : Type;
  Doc : Type;
  json_load : Content -> option Doc;
  py_str : Doc -> string
}.

(** A directory tree.  The entries of a directory are kept in the order
    [os.listdir] reports them. *)
#[warnings="-register-all"] Inductive fsnode (C : Type) : Type :=
  | File (content : C)
  | Dir (entries : list (string * fsnode C)).

Arguments File {C} content.
Arguments Dir {C} entries.

Fixpoint find_entry {C} (name : string) (entries : list (string * fsnode C))
  : option (fsnode C) :=
  match entries with
  | [] => None
  | (n, node) :: rest => if String.eqb n name then Some node else find_entry name rest
  end.

(** The node at [os.path.join(dir, name)], if it exists; nothing exists
    below a file or below a missing directory. *)
Definition lookup {C} (dir : option (fsnode C)) (name : string) : option (fsnode C) :=
  match dir with
  | Some (Dir entries) => find_entry name entries
  | _ => None
  end.

(** Python exceptions the search can meet. *)
Inductive py_error : Type :=
  | PyException (message : string)
  | ValueError (message : string)
  | OSError (message : string)
  | NotADirectoryError (path : string).

(** [str(e)]. *)
Definition str_error (e : py_error) : string :=
  match e with
  | PyException m => m
  | ValueError m => m
  | OSError m => m
  | NotADirectoryError p => ("[Errno 20] Not a directory: '" ++ p ++ "'")%string
  end.

(** A call either returns a value or raises. *)
Inductive outcome (A : Type) : Type :=
  | Returned (value : A)
  | Raised (e : py_error).

Arguments Returned {A} value.
Arguments Raised {A} e.

(** [os.listdir(path)] on an existing node. *)
Definition listdir {C} (path : string) (node : fsnode C) : outcome (list string) :=
  match node with
  | Dir entries => Returned (map fst entries)
  | File _ => Raised (NotADirectoryError path)
  end.

(** A listing of pairwise distinct plain names. *)
Definition plain_listing {C} (entries : list (string * fsnode C)) : bool :=
  nodupb (map fst entries) && forallb plain_name (map fst entries).

Section Pipeline.
Context {J : PyJson}.

(* ================================================================== *)
(** ** Result records *)

(** The [metadata] dictionary of a result record.  The search fills
    [video_name], [frame_number] and [media_info]; the mock generator fills
    [video_name], [frame_number] and [timestamp]. *)
Record metadata : Type := {
  md_video_name : option string;
  md_frame_number : option nat;
  md_timestamp : option string;
  md_media_info : option Doc
}.

(** One dictionary of [retrieved_images]; a key that may be missing is an
    [option]. *)
Record result : Type := {
  frame_id : string;
  video_name : option string;
  image_url : option string;
  keyframe_path : option string;
  meta : option metadata
}.

(* ================================================================== *)
(** ** Linear metadata search *)

(** The body of the inner loop of [search_database_text] (lines 792-805),
    with [i] the index [enumerate] has reached. *)
Fixpoint keyframe_records (media_data : Doc) (video keyframe_folder : string)
    (i : nat) (keyframe_files : list string) : list result :=
  match keyframe_files with
  | [] => []
  | keyframe_file :: rest =>
      {| frame_id := fst (splitext keyframe_file);
         video_name := Some video;
         image_url := None;
         keyframe_path := Some (path_join keyframe_folder keyframe_file);
         meta := Some {| md_video_name := Some (video ++ ".mp4")%string;
                         md_frame_number := Some i;
                         md_timestamp := None;
                         md_media_info := Some media_data |} |}
      :: keyframe_records media_data video keyframe_folder (S i) rest
  end.

(** The match rule of line 786. *)
Definition matches (text_query : string) (media_data : Doc) : bool :=
  py_in (lower text_query) (lower (py_str media_data)).

(** [f.endswith('.jpg')] over a listing. *)
Definition jpg_files (names : list string) : list string :=
  filter (fun f => endswith f ".jpg") names.

(** One iteration of the loop over [media_files] (lines 776-809): the
    records it appends.  Whatever raises inside the iteration (the file
    cannot be opened or parsed, the keyframe path is not a directory) is
    caught by the handler of line 807, which appends nothing. *)
Definition process_media_file (database_path : string)
    (root : option (fsnode Content)) (text_query media_file : string) : list result :=
  let media_info_path := path_join database_path "media-info" in
  let keyframes_path := path_join database_path "keyframes" in
  match lookup (lookup root "media-info") media_file with
  | Some (File content) =>
      match json_load content with
      | Some media_data =>
          let video := fst (splitext media_file) in
          if matches text_query media_data then
            let keyframe_folder := path_join keyframes_path video in
            match lookup (lookup root "keyframes") video with
            | Some node =>
                match listdir keyframe_folder node with
                | Returned names =>
                    keyframe_records media_data video keyframe_folder 0
                      (firstn 10 (jpg_files names))
                | Raised _ => []
                end
            | None => []
            end
          else []
      | None => []
      end
  | _ => []
  end.

(** [search_database_text]: [root] is the tree found at [database_path]
    ([None] when nothing is there). *)
Definition search_database_text (database_path : string)
    (root : option (fsnode Content)) (text_query : string) : outcome (list result) :=
  let media_info_path := path_join database_path "media-info" in
  let wrap (e : py_error) :=
    PyException ("Database search failed: " ++ str_error e)%string in
  match lookup root "media-info" with
  | None => Raised (wrap (PyException "Media info folder not found in database"))
  | Some node =>
      match listdir media_info_path node with
      | Raised e => Raised (wrap e)
      | Returned names =>
          let media_files := filter (fun f => endswith f ".json") names in
          Returned (flat_map (process_media_file database_path root text_query) media_files)
      end
  end.

(** One record of the mock response (lines 698-708).  The dictionary literal
    gives the key [frame_id] twice; the later value is the one kept. *)
Definition mock_result (i : nat) : result :=
  {| frame_id := ("frame_" ++ zfill 4 (dec i))%string;
     video_name := Some ("video_" ++ dec (i / 5 + 1))%string;
     image_url := Some ("https://picsum.photos/200/150?random=" ++ dec i)%string;
     keyframe_path := None;
     meta := Some {| md_video_name := Some ("sample_video_" ++ dec (i / 5 + 1) ++ ".mp4")%string;
                     md_frame_number := Some (i * 10);
                     md_timestamp := Some ("00:0" ++ dec (i / 10) ++ ":"
                                            ++ zfill 2 (dec ((i * 6) mod 60)))%string;
                     md_media_info := None |} |}.

Definition mock_results : list result := map mock_result (seq 0 20).

(** [call_backend_text]. *)
Definition call_backend_text (use_mock_data : bool) (database_path : string)
    (root : option (fsnode Content)) (text_query : string) : outcome (list result) :=
  if negb use_mock_data then search_database_text database_path root text_query
  else Returned mock_results.

(** [search_database_image] and [search_database_multimodal]: both fall
    back on the text search. *)
Definition search_database_image (database_path : string)
    (root : option (fsnode Content)) (image_path : string) : outcome (list result) :=
  search_database_text database_path root "image_search".

Definition search_database_multimodal (database_path : string)
    (root : option (fsnode Content)) (text_query image_path : string)
  : outcome (list result) :=
  search_database_text database_path root text_query.

(** [call_backend_multimodal] and [call_backend_image]. *)
Definition call_backend_multimodal (use_mock_data : bool) (database_path : string)
    (root : option (fsnode Content)) (text_query image_path : string)
  : outcome (list result) :=
  if negb use_mock_data
  then search_database_multimodal database_path root text_query image_path
  else call_backend_text use_mock_data database_path root ("multimodal: " ++ text_query)%string.

Definition call_backend_image (use_mock_data : bool) (database_path : string)
    (root : option (fsnode Content)) (image_path : string) : outcome (list result) :=
  if negb use_mock_data then search_database_image database_path root image_path
  else call_backend_text use_mock_data database_path root "uploaded image".

(** [call_backend_txt_file]; [read] is what opening and reading the
    uploaded file gives.  Every exception inside is re-raised wrapped. *)
Definition call_backend_txt_file (use_mock_data : bool) (database_path : string)
    (root : option (fsnode Content)) (read : outcome string) : outcome (list result) :=
  let wrap (e : py_error) :=
    PyException ("Failed to process TXT file: " ++ str_error e)%string in
  match read with
  | Raised e => Raised (wrap e)
  | Returned text =>
      let content := strip text in
      match (if negb use_mock_data
             then search_database_text database_path root content
             else call_backend_text use_mock_data database_path root content) with
      | Returned results => Returned results
      | Raised e => Raised (wrap e)
      end
  end.

(** The [query_data] dictionary of [process_search]. *)
Record query_data : Type := {
  q_text : option string;
  q_image_path : option string;
  q_txt_file : option (outcome string)
}.

(** The dispatch of [_run_search] (lines 666-675). *)
Definition dispatch_search (use_mock_data : bool) (database_path : string)
    (root : option (fsnode Content)) (q : query_data) : outcome (list result) :=
  match q_txt_file q, q_text q, q_image_path q with
  | Some read, _, _ => call_backend_txt_file use_mock_data database_path root read
  | None, Some text, Some image =>
      call_backend_multimodal use_mock_data database_path root text image
  | None, Some text, None => call_backend_text use_mock_data database_path root text
  | None, None, Some image => call_backend_image use_mock_data database_path root image
  | None, None, None => Raised (ValueError "No valid input provided")
  end.

(** [r['metadata']['frame_number']]. *)
Definition frame_number (r : result) : option nat :=
  match meta r with
  | Some md => md_frame_number md
  | None => None
  end.

(** [r.get('video_name') == v]. *)
Definition of_video (v : string) (r : result) : bool :=
  match video_name r with
  | Some x => String.eqb x v
  | None => false
  end.

(* ================================================================== *)
(** ** Result set and selection *)

Inductive task : Type := KIS | QnA | TRAKE.

(** The value of the [current_task] variable, and [task.lower()]. *)
Definition task_name (t : task) : string :=
  match t with KIS => "KIS" | QnA => "QnA" | TRAKE => "TRAKE" end.

Definition task_lower (t : task) : string := lower (task_name t).

(** The fields of [VideoRetrievalUI] the pipeline reads and writes.
    [uploaded_txt_file] keeps the [base_name] of the uploaded file. *)
Record ui : Type := {
  retrieved_images : list result;
  selected_images : list string;
  current_task : task;
  answer_entry : string;
  uploaded_txt_file : option string
}.

Definition with_results (st : ui) (records : list result) (selected : list string) : ui :=
  {| retrieved_images := records;
     selected_images := selected;
     current_task := current_task st;
     answer_entry := answer_entry st;
     uploaded_txt_file := uploaded_txt_file st |}.

(** [_update_results]: the result set is replaced, the selection emptied. *)
Definition _update_results (results : list result) (st : ui) : ui :=
  with_results st results [].

(** [_run_search] with the callback it schedules on the UI thread.  The
    second component is the text the callback gives the status label, if it
    gives one.  A returned result is handed to [_update_results] as an
    argument.  For a raised exception the callback is the lambda of line
    681, which reads the variable [e] of the [except] clause only when it
    runs; by then the clause has ended and Python has unbound [e], so the
    callback raises [NameError] and the label is left as it was. *)
Definition _run_search (use_mock_data : bool) (database_path : string)
    (root : option (fsnode Content)) (q : query_data) (st : ui)
  : ui * option string :=
  match dispatch_search use_mock_data database_path root q with
  | Returned results =>
      (_update_results results st,
       Some ("Retrieved " ++ dec (List.length results) ++ " frames")%string)
  | Raised e => (st, None)
  end.

(** [list.remove(x)]: drop the first occurrence. *)
Fixpoint remove_first (x : string) (xs : list string) : list string :=
  match xs with
  | [] => []
  | y :: rest => if String.eqb y x then rest else y :: remove_first x rest
  end.

(** [toggle_selection]. *)
Definition toggle_selection (fid : string) (is_selected : bool) (st : ui) : ui :=
  if is_selected && negb (mem fid (selected_images st)) then
    with_results st (retrieved_images st) (selected_images st ++ [fid])
  else if negb is_selected && mem fid (selected_images st) then
    with_results st (retrieved_images st) (remove_first fid (selected_images st))
  else st.

(** The command of the checkbox [load_image_widget] builds for the record
    [frame_data]; [var] is the state of the checkbox. *)
Definition checkbox_command (frame_data : result) (var : bool) (st : ui) : ui :=
  toggle_selection (frame_id frame_data) var st.

(** [clear_selection]. *)
Definition clear_selection (st : ui) : ui :=
  with_results st (retrieved_images st) [].

(** [select_all]. *)
Definition select_all (st : ui) : ui :=
  with_results st (retrieved_images st) (map frame_id (retrieved_images st)).

(** [clear_all_inputs]. *)
Definition clear_all_inputs (st : ui) : ui :=
  {| retrieved_images := [];
     selected_images := [];
     current_task := current_task st;
     answer_entry := "";
     uploaded_txt_file := None |}.

(** What the user and the search thread can make happen to the result
    set: a search delivers its records, the checkbox of the [i]-th displayed
    record is switched, or one of the three buttons is pressed. *)
Inductive ui_event : Type :=
  | SearchDelivered (results : list result)
  | CheckboxSwitched (i : nat) (var : bool)
  | SelectAllPressed
  | ClearSelectionPressed
  | ClearInputsPressed.

Definition handle (st : ui) (e : ui_event) : ui :=
  match e with
  | SearchDelivered results => _update_results results st
  | CheckboxSwitched i var =>
      match nth_error (retrieved_images st) i with
      | Some frame_data => checkbox_command frame_data var st
      | None => st
      end
  | SelectAllPressed => select_all st
  | ClearSelectionPressed => clear_selection st
  | ClearInputsPressed => clear_all_inputs st
  end.

(** The state [__init__] sets up. *)
Definition initial_ui : ui :=
  {| retrieved_images := [];
     selected_images := [];
     current_task := KIS;
     answer_entry := "";
     uploaded_txt_file := None |}.

(** The invariant of the result set: every selected id is the [frame_id] of
    a current record. *)
Definition selection_valid (st : ui) : Prop :=
  forall fid, In fid (selected_images st) -> In fid (map frame_id (retrieved_images st)).

(* ================================================================== *)
(** ** CSV export *)

(** A CSV file as the rows handed to [writer.writerow]. *)
Definition row : Type := list string.

(** What the export leaves on disk: the directories made and the files
    with their rows, one entry per path, latest first. *)
Record disk : Type := {
  directories : list string;
  files : list (string * list row)
}.

(** [os.makedirs(path, exist_ok=True)]. *)
Definition makedirs (path : string) (d : disk) : disk :=
  {| directories := if mem path (directories d) then directories d
                    else path :: directories d;
     files := files d |}.

(** [open(filepath, 'w')] followed by the rows written: a file already at
    that path is truncated, so the rows written replace what it held. *)
Definition write_file (filepath : string) (rows : list row) (d : disk) : disk :=
  {| directories := directories d;
     files := (filepath, rows)
              :: filter (fun f => negb (String.eqb (fst f) filepath)) (files d) |}.

(** Line 1005: [img.get('metadata', {}).get('video_name',
    img.get('video_name', 'unknown'))]. *)
Definition export_video_name (img : result) : string :=
  let fallback := match video_name img with Some v => v | None => "unknown" end in
  match meta img with
  | Some md => match md_video_name md with Some v => v | None => fallback end
  | None => fallback
  end.

(** Line 997. *)
Definition selected_data (st : ui) : list result :=
  filter (fun img => mem (frame_id img) (selected_images st)) (retrieved_images st).

(** Lines 1025-1027 on the insertion-ordered dictionary [videos]. *)
Fixpoint add_frame (videos : list (string * list string)) (v fid : string)
  : list (string * list string) :=
  match videos with
  | [] => [(v, [fid])]
  | (k, frames) :: rest =>
      if String.eqb k v then (k, frames ++ [fid]) :: rest
      else (k, frames) :: add_frame rest v fid
  end.

(** The loop of lines 1022-1027. *)
Definition group_by_video (data : list result) : list (string * list string) :=
  fold_left (fun videos img => add_frame videos (export_video_name img) (frame_id img))
            data [].

(** Line 1030. *)
Definition max_frames (videos : list (string * list string)) : nat :=
  list_max (map (fun kv => List.length (snd kv)) videos).

(** The rows [create_csv_file] writes for each task (lines 1002-1035). *)
Definition csv_rows (t : task) (answer : string) (data : list result) : list row :=
  match t with
  | KIS => map (fun img => [export_video_name img; frame_id img]) data
  | QnA => map (fun img => [export_video_name img; frame_id img; answer]) data
  | TRAKE =>
      match data with
      | [] => []
      | _ =>
          let videos := group_by_video data in
          map (fun kv => fst kv :: snd kv
                         ++ repeat "" (max_frames videos - List.length (snd kv)))
              videos
      end
  end.

(** [create_csv_file]: the path returned and the disk afterwards.
    [base_dir] is the directory of the script, [timestamp] the formatted
    time of the call. *)
Definition create_csv_file (base_dir timestamp : string) (st : ui) (d : disk)
  : string * disk :=
  let t := current_task st in
  let output_base := path_join base_dir "output_csv" in
  let output_dir := path_join output_base (timestamp ++ "-" ++ task_lower t)%string in
  let d1 := makedirs output_dir (makedirs output_base d) in
  let filename :=
    match uploaded_txt_file st with
    | Some base_name => (base_name ++ ".csv")%string
    | None => (timestamp ++ "-" ++ task_lower t ++ ".csv")%string
    end in
  let filepath := path_join output_dir filename in
  (filepath, write_file filepath (csv_rows t (strip (answer_entry st)) (selected_data st)) d1).

(** [generate_csv]: the message box shown and the disk afterwards. *)
Definition generate_csv (base_dir timestamp : string) (st : ui) (d : disk)
  : dialog * disk :=
  match selected_images st with
  | [] => (ShowWarning "Warning" "No frames selected", d)
  | _ =>
      match current_task st, strip (answer_entry st) with
      | QnA, EmptyString => (ShowWarning "Warning" "Answer is required for QnA task", d)
      | _, _ =>
          let (output_path, d') := create_csv_file base_dir timestamp st d in
          (ShowInfo "Success"
             ("CSV file generated successfully:" ++ String (ascii_of_nat 10) output_path)%string,
           d')
      end
  end.

(** The identity of a record within a result set. *)
Definition record_key (r : result) : option string * string :=
  (video_name r, frame_id r).

(** The frame ids of the records of video [v], in the order of [data]. *)
Definition frames_of (v : string) (data : list result) : list string :=
  map frame_id (filter (fun r => String.eqb (export_video_name r) v) data).

(** A record with a video name and a frame id only. *)
Definition bare_record (v fid : string) : result :=
  {| frame_id := fid; video_name := Some v; image_url := None;
     keyframe_path := None; meta := None |}.

End Pipeline.

(* ================================================================== *)
(** ** A concrete document model

    JSON values without floating-point numbers, and the text [str] gives
    for the Python value [json.load] builds from them.  The theorems below
    hold for every [PyJson]; this instance is the one the examples run on. *)

#[warnings="-register-all"] Inductive json : Type :=
  | JNull
  | JBool (b : bool)
  | JInt (n : Z)
  | JStr (s : string)
  | JList (items : list json)
  | JDict (items : list (string * json)).

Definition hex_digit (n : nat) : ascii :=
  nth n (list_ascii_of_string "0123456789abcdef") "0"%char.

Definition has_char (c : ascii) (s : string) : bool :=
  existsb (Ascii.eqb c) (list_ascii_of_string s).

(** [repr] of a [str]: single quotes, unless the text holds a single quote
    and no double quote; backslash, the quote in use and control characters
    are escaped. *)
Definition repr_char (quote c : ascii) : string :=
  let n := nat_of_ascii c in
  if Ascii.eqb c "\"%char then "\\"
  else if Ascii.eqb c quote then String "\"%char (String c "")
  else if Nat.eqb n 10 then "\n"
  else if Nat.eqb n 13 then "\r"
  else if Nat.eqb n 9 then "\t"
  else if (n <? 32)%nat || Nat.eqb n 127
       then String "\"%char (String "x"%char
              (String (hex_digit (n / 16)) (String (hex_digit (n mod 16)) "")))
  else String c "".

Definition repr_str (s : string) : string :=
  let dq := ascii_of_nat 34 in
  let quote := if has_char "'"%char s && negb (has_char dq s) then dq else "'"%char in
  (String quote (String.concat "" (map (repr_char quote) (list_ascii_of_string s)))
   ++ String quote "")%string.

Fixpoint py_repr (v : json) : string :=
  match v with
  | JNull => "None"
  | JBool true => "True"
  | JBool false => "False"
  | JInt n => NilZero.string_of_int (Z.to_int n)
  | JStr s => repr_str s
  | JList items => ("[" ++ String.concat ", " (map py_repr items) ++ "]")%string
  | JDict items =>
      ("{" ++ String.concat ", "
                (map (fun kv => (repr_str (fst kv) ++ ": " ++ py_repr (snd kv))%string) items)
           ++ "}")%string
  end.

(** A file is kept as the value its text parses to, [None] when the text is
    not JSON. *)
#[export] Instance json_documents : PyJson := {
  Content := option json;
  Doc := json;
  json_load := fun content => content;
  py_str := py_repr
}.

(** The store of the specification's example: one metadata file [v1.json]
    holding [{"title": "cat video"}], and twelve keyframes of [v1]. *)
Definition image : fsnode (option json) := File None.

Definition v1_keyframes : list (string * fsnode (option json)) :=
  map (fun i => ((zfill 3 (dec i) ++ ".jpg")%string, image)) (seq 1 12).

Definition example_store : option (fsnode (option json)) :=
  Some (Dir [ ("keyframes", Dir [("v1", Dir v1_keyframes)]);
              ("media-info",
               Dir [("v1.json", File (Some (JDict [("title", JStr "cat video")])))]) ]).

(** A store in which two videos match the same query and name their
    keyframes alike. *)
Definition two_video_store : option (fsnode (option json)) :=
  Some (Dir [ ("keyframes",
               Dir [ ("v1", Dir [("001.jpg", image); ("002.jpg", image)]);
                     ("v2", Dir [("001.jpg", image); ("002.jpg", image)]) ]);
              ("media-info",
               Dir [ ("v1.json", File (Some (JDict [("title", JStr "cat video")])));
                     ("v2.json", File (Some (JDict [("title", JStr "cat show")]))) ]) ]).

(** A result set showing the twenty mock records, nothing selected. *)
Definition mock_ui : ui (J := json_documents) :=
  {| retrieved_images := mock_results;
     selected_images := [];
     current_task := KIS;
     answer_entry := "";
     uploaded_txt_file := None |}.

(* ================================================================== *)
(** ** Database browser *)

(** [items.sort()] on strings: ascending by code point. *)
Fixpoint insert_sorted (x : string) (l : list string) : list string :=
  match l with
  | [] => [x]
  | y :: t => if String.leb x y then x :: l else y :: insert_sorted x t
  end.

Fixpoint sort_strings (l : list string) : list string :=
  match l with
  | [] => []
  | x :: t => insert_sorted x (sort_strings t)
  end.

(** [os.path.isdir] on the node a path leads to. *)
Definition isdir {C} (node : option (fsnode C)) : bool :=
  match node with
  | Some (Dir _) => true
  | _ => false
  end.

(** The six collections and their content types, as [refresh_database_view]
    pairs them (lines 166-169). *)
Definition folder_types : list (string * string) :=
  combine ["keyframes"; "videos"; "clip-features-32"; "map-keyframes"; "media-info"; "objects"]
          ["folder"; "file"; "file"; "file"; "file"; "folder"].

(** The filter of lines 184-196 over the listing of the folder [node]. *)
Definition folder_items {C} (folder_name content_type : string) (node : fsnode C)
    (items : list string) : list string :=
  if String.eqb content_type "folder" then
    filter (fun item => isdir (lookup (Some node) item)) items
  else if String.eqb folder_name "videos" then
    filter (fun item => endswith (lower item) ".mp4") items
  else if String.eqb folder_name "clip-features-32" then
    filter (fun item => endswith (lower item) ".npy") items
  else if String.eqb folder_name "map-keyframes" then
    filter (fun item => endswith (lower item) ".csv") items
  else if String.eqb folder_name "media-info" then
    filter (fun item => endswith (lower item) ".json") items
  else items.

(** [refresh_folder_list]: the lines of the listbox afterwards. *)
Definition refresh_folder_list {C} (database_path : string) (root : option (fsnode C))
    (folder_name content_type : string) : list string :=
  let folder_path := path_join database_path folder_name in
  match lookup root folder_name with
  | None => [("Folder '" ++ folder_name ++ "' not found")%string]
  | Some node =>
      match listdir folder_path node with
      | Raised e => [("Error: " ++ str_error e)%string]
      | Returned items =>
          match sort_strings (folder_items folder_name content_type node items) with
          | [] => ["No items found"]
          | sorted => sorted
          end
      end
  end.

(** [refresh_database_view]: the six listboxes, in the order of
    [folder_types]. *)
Definition refresh_database_view {C} (database_path : string) (root : option (fsnode C))
  : list (string * list string) :=
  map (fun ft => (fst ft, refresh_folder_list database_path root (fst ft) (snd ft)))
      folder_types.

(** The viewers of [open_file_viewer]. *)
Inductive viewer : Type :=
  | ImageViewer | JsonViewer | CsvViewer | NumpyViewer | VideoInfo | TextViewer.

(** The dispatch of [open_file_viewer] (lines 284-301). *)
Definition open_file_viewer (filename : string) : viewer :=
  let name := lower filename in
  if endswith name ".jpg" || endswith name ".jpeg" || endswith name ".png"
  then ImageViewer
  else if endswith name ".json" then JsonViewer
  else if endswith name ".csv" then CsvViewer
  else if endswith name ".npy" then NumpyViewer
  else if endswith name ".mp4" then VideoInfo
  else TextViewer.

(** What pressing Open leads to. *)
Inductive open_action : Type :=
  | SelectWarning (d : dialog)
  | NoAction
  | FolderBrowser (folder_path title : string)
  | FileViewer (file_path filename folder_type : string) (v : viewer).

(** The test of line 216: the line reads like one of the three messages
    [refresh_folder_list] writes in place of items. *)
Definition reads_as_message (item_name : string) : bool :=
  startswith item_name "Error:" || startswith item_name "No items"
  || startswith item_name "Folder".

(** [open_database_item]; [selection] is the selected index of the listbox,
    if any ([listbox.get] of an index past the end is the empty text).  The
    windows the two openers build are left to the toolkit. *)
Definition open_database_item (database_path folder_name : string)
    (listbox : list string) (selection : option nat) (content_type : string)
  : open_action :=
  match selection with
  | None => SelectWarning (ShowWarning "Warning" "Please select an item to open")
  | Some i =>
      let item_name := nth i listbox "" in
      if reads_as_message item_name
      then NoAction
      else
        let item_path := path_join (path_join database_path folder_name) item_name in
        if String.eqb content_type "folder"
        then FolderBrowser item_path (folder_name ++ "/" ++ item_name)%string
        else FileViewer item_path item_name folder_name (open_file_viewer item_name)
  end.

(** The file list of [open_folder_browser] (lines 252-258); [node] is what
    [folder_path] leads to. *)
Definition open_folder_browser {C} (folder_path : string) (node : option (fsnode C))
  : list string :=
  let failed (e : py_error) := [("Error loading folder: " ++ str_error e)%string] in
  match node with
  | None =>
      failed (OSError ("[Errno 2] No such file or directory: '" ++ folder_path ++ "'")%string)
  | Some n =>
      match listdir folder_path n with
      | Returned files => sort_strings files
      | Raised e => failed e
      end
  end.

(* ================================================================== *)
(** ** Query input *)

(** [os.path.basename] (posixpath). *)
Definition basename (p : string) : string :=
  match rfind "/" p with
  | Some i => substring (S i) (String.length p - S i) p
  | None => p
  end.

(** The task the name of an uploaded file selects (lines 592-598);
    [current] stays when no keyword occurs. *)
Definition detect_task (filename : string) (current : task) : task :=
  let filename_lower := lower filename in
  if py_in "kis" filename_lower then KIS
  else if py_in "qa" filename_lower || py_in "qna" filename_lower then QnA
  else if py_in "trake" filename_lower then TRAKE
  else current.

(** A store with a metadata file that does not parse, a directory named
    like a metadata file, and a video without keyframes, beside [v1]. *)
Definition damaged_store : option (fsnode (option json)) :=
  Some (Dir [ ("keyframes", Dir [("v1", Dir v1_keyframes)]);
              ("media-info",
               Dir [ ("broken.json", File None);
                     ("v1.json", File (Some (JDict [("title", JStr "cat video")])));
                     ("sub.json", Dir []);
                     ("v9.json", File (Some (JDict [("title", JStr "cat nine")]))) ]) ]).


(** The last character of a text, if it has one. *)
Fixpoint last_char (s : string) : option ascii :=
  match s with
  | EmptyString => None
  | String c t => match last_char t with Some x => Some x | None => Some c end
  end.

(** Ascending order, as [sort] leaves a list of strings. *)
Definition ascending (l : list string) : Prop :=
  Sorted (fun a b => String.leb a b = true) l.

(** The viewer that goes with each of the four file collections. *)
Definition collection_viewers : list (string * (string * viewer)) :=
  [ ("videos", (".mp4", VideoInfo));
    ("clip-features-32", (".npy", NumpyViewer));
    ("map-keyframes", (".csv", CsvViewer));
    ("media-info", (".json", JsonViewer)) ].

(** A store whose only metadata file carries an upper-case extension. *)
Definition upper_case_store : option (fsnode (option json)) :=
  Some (Dir [ ("keyframes", Dir [("V1", Dir [("001.jpg", image)])]);
              ("media-info",
               Dir [("V1.JSON", File (Some (JDict [("title", JStr "cat video")])))]) ]).

(** The name of the export directory, [<timestamp>-<task>]. *)
Definition export_name (timestamp : string) (t : task) : string :=
  (timestamp ++ "-" ++ task_lower t)%string.

Section Interface.
Context {J : PyJson}.

(** [upload_txt_file]: [file_path] is what the file dialog returns (empty
    when cancelled), [read] what opening and reading that file gives, [box]
    the content of the query box.  The result is the error box shown, if
    any, the new state and the new content of the query box. *)
Definition upload_txt_file (file_path : string) (read : outcome string)
    (st : ui) (box : string) : option dialog * ui * string :=
  if String.eqb file_path "" then (None, st, box)
  else
    match read with
    | Raised e =>
        (Some (ShowError "Error" ("Failed to load TXT file: " ++ str_error e)%string),
         st, box)
    | Returned text =>
        let content := strip text in
        let filename := basename file_path in
        (None,
         {| retrieved_images := retrieved_images st;
            selected_images := selected_images st;
            current_task := detect_task filename (current_task st);
            answer_entry := answer_entry st;
            uploaded_txt_file := Some (fst (splitext filename)) |},
         content)
    end.

(** [process_search] up to the start of the search thread: the warning, or
    the [query_data] handed to [_run_search].  [read] is what reading the
    uploaded TXT file will give when the search runs. *)
Definition process_search (box : string) (uploaded_image_path : option string)
    (read : outcome string) (st : ui) : dialog + query_data :=
  let text_query := strip (text_entry_get box) in
  let has_text := negb (String.eqb text_query "") in
  let has_image := match uploaded_image_path with Some _ => true | None => false end in
  let has_txt := match uploaded_txt_file st with Some _ => true | None => false end in
  if negb has_text && negb has_image && negb has_txt then
    inl (ShowWarning "Warning"
           "Please provide at least one input: text, image, or TXT file")
  else
    inr {| q_text := if has_text then Some text_query else None;
           q_image_path := uploaded_image_path;
           q_txt_file := if has_txt then Some read else None |}.

End Interface.

(* ================================================================== *)
(** * Properties *)

(** ** Words, splitting and joining *)

Lemma word_cons (P : ascii -> Prop) (c : ascii) (w : list ascii) :
  is_space c = false -> P c ->
  Forall (fun a => is_space a = false /\ P a) w -> word P (c :: w).
Proof.
  intros Hs Hc Hw. split; [discriminate|].
  constructor; [split; assumption|exact Hw].
Qed.

Lemma split_chars_words (P : ascii -> Prop) (s : list ascii) :
  Forall P s -> Forall (word P) (split_chars s).
Proof.
  induction s as [|c t IH]; intros HP; [constructor|].
  inversion HP as [|? ? Hc Ht]; subst.
  specialize (IH Ht). simpl.
  destruct (is_space c) eqn:Ec; [exact IH|].
  destruct t as [|c' t'].
  - constructor; [|constructor]. apply word_cons; [assumption|assumption|constructor].
  - destruct (is_space c') eqn:Ec'.
    + constructor; [|exact IH].
      apply word_cons; [assumption|assumption|constructor].
    + destruct (split_chars (c' :: t')) as [|w ws].
      * constructor; [|constructor].
        apply word_cons; [assumption|assumption|constructor].
      * inversion IH as [|? ? [_ Hw] Hws]; subst.
        constructor; [|exact Hws].
        apply word_cons; assumption.
Qed.

Lemma split_chars_one_word (P : ascii -> Prop) (w : list ascii) :
  word P w -> split_chars w = [w].
Proof.
  intros [Hne Hw]. induction w as [|c t IH]; [congruence|].
  inversion Hw as [|? ? [Hc _] Ht]; subst.
  simpl. rewrite Hc. destruct t as [|c' t']; [reflexivity|].
  inversion Ht as [|? ? [Hc' _] _]; subst. rewrite Hc'.
  rewrite IH; [reflexivity|discriminate|exact Ht].
Qed.

Lemma split_chars_word_space (P : ascii -> Prop) (w rest : list ascii) (sp : ascii) :
  word P w -> is_space sp = true ->
  split_chars (w ++ sp :: rest) = w :: split_chars rest.
Proof.
  intros [Hne Hw] Hsp. induction w as [|c t IH]; [congruence|].
  inversion Hw as [|? ? [Hc _] Ht]; subst.
  destruct t as [|c' t'].
  - simpl. rewrite Hc, Hsp. reflexivity.
  - inversion Ht as [|? ? [Hc' _] _]; subst.
    change (split_chars ((c :: c' :: t') ++ sp :: rest))
      with (if is_space c then split_chars ((c' :: t') ++ sp :: rest)
            else if is_space c' then [c] :: split_chars ((c' :: t') ++ sp :: rest)
            else match split_chars ((c' :: t') ++ sp :: rest) with
                 | w :: ws => (c :: w) :: ws
                 | [] => [[c]]
                 end).
    rewrite Hc, Hc', IH; [reflexivity|discriminate|exact Ht].
Qed.

Lemma split_join_chars (P : ascii -> Prop) (ws : list (list ascii)) :
  Forall (word P) ws -> split_chars (join_chars ws) = ws.
Proof.
  induction ws as [|w ws IH]; intros H; [reflexivity|].
  inversion H as [|? ? Hw Hws]; subst.
  destruct ws as [|w2 ws'].
  - exact (split_chars_one_word P w Hw).
  - change (join_chars (w :: w2 :: ws')) with (w ++ " "%char :: join_chars (w2 :: ws')).
    rewrite (split_chars_word_space P); [|exact Hw|reflexivity].
    rewrite IH; [reflexivity|exact Hws].
Qed.

Lemma join_chars_all (Q : ascii -> Prop) (ws : list (list ascii)) :
  Q " "%char -> Forall (Forall Q) ws -> Forall Q (join_chars ws).
Proof.
  intros Hsp. induction ws as [|w ws IH]; intros H; [constructor|].
  inversion H as [|? ? Hw Hws]; subst.
  destruct ws as [|w2 ws']; [exact Hw|].
  change (join_chars (w :: w2 :: ws')) with (w ++ " "%char :: join_chars (w2 :: ws')).
  apply Forall_app. split; [exact Hw|]. constructor; [exact Hsp|]. apply IH, Hws.
Qed.

Lemma join_chars_nonempty (P : ascii -> Prop) (w : list ascii) (ws : list (list ascii)) :
  word P w -> join_chars (w :: ws) <> [].
Proof.
  intros [Hne _]. destruct ws; simpl.
  - exact Hne.
  - destruct w; [congruence|discriminate].
Qed.

(** ** Stripping *)

Lemma rstrip_chars_word (P : ascii -> Prop) (w : list ascii) :
  word P w -> rstrip_chars w = w.
Proof.
  intros [Hne Hw]. induction w as [|c t IH]; [congruence|].
  inversion Hw as [|? ? [Hc _] Ht]; subst. simpl.
  destruct t as [|c' t'].
  - simpl. rewrite Hc. reflexivity.
  - rewrite IH; [reflexivity|discriminate|exact Ht].
Qed.

Lemma rstrip_chars_app (a b : list ascii) :
  b <> [] -> rstrip_chars b = b -> rstrip_chars (a ++ b) = a ++ b.
Proof.
  intros Hne Hb. induction a as [|c a IH]; [exact Hb|].
  simpl. rewrite IH. destruct (a ++ b) eqn:E; [|reflexivity].
  apply app_eq_nil in E. tauto.
Qed.

Lemma rstrip_chars_join (P : ascii -> Prop) (ws : list (list ascii)) :
  Forall (word P) ws -> rstrip_chars (join_chars ws) = join_chars ws.
Proof.
  induction ws as [|w ws IH]; intros H; [reflexivity|].
  inversion H as [|? ? Hw Hws]; subst.
  destruct ws as [|w2 ws']; [exact (rstrip_chars_word P w Hw)|].
  change (join_chars (w :: w2 :: ws')) with (w ++ " "%char :: join_chars (w2 :: ws')).
  apply rstrip_chars_app; [discriminate|].
  inversion Hws as [|? ? Hw2 _]; subst.
  pose proof (join_chars_nonempty P w2 ws' Hw2) as Hne.
  apply (rstrip_chars_app [" "%char] (join_chars (w2 :: ws')) Hne (IH Hws)).
Qed.

Lemma lstrip_chars_join (P : ascii -> Prop) (ws : list (list ascii)) :
  Forall (word P) ws -> lstrip_chars (join_chars ws) = join_chars ws.
Proof.
  intros H. destruct ws as [|w ws]; [reflexivity|].
  inversion H as [|? ? [Hne Hw] _]; subst.
  destruct w as [|c t]; [congruence|].
  inversion Hw as [|? ? [Hc _] _]; subst.
  destruct ws; simpl; rewrite Hc; reflexivity.
Qed.

Lemma rstrip_chars_snoc (y : list ascii) (c : ascii) :
  is_space c = true -> rstrip_chars (y ++ [c]) = rstrip_chars y.
Proof.
  intros Hc. induction y as [|a y IH]; simpl.
  - rewrite Hc. reflexivity.
  - rewrite IH. reflexivity.
Qed.

Lemma strip_chars_snoc (x : list ascii) (c : ascii) :
  is_space c = true -> strip_chars (x ++ [c]) = strip_chars x.
Proof.
  intros Hc. unfold strip_chars. induction x as [|a x IH]; simpl.
  - rewrite Hc. reflexivity.
  - destruct (is_space a); [exact IH|].
    exact (rstrip_chars_snoc (a :: x) c Hc).
Qed.

(** ** The cleaned text is a fixed point of every stage *)

Lemma clean_chars_words (z : list ascii) :
  Forall (word not_punctuation)
         (split_chars (filter (fun c => negb (is_punctuation c)) z)).
Proof.
  apply split_chars_words. apply Forall_forall. intros c Hc.
  apply filter_In in Hc. destruct Hc as [_ Hc].
  unfold not_punctuation. destruct (is_punctuation c); [discriminate|reflexivity].
Qed.

Lemma clean_chars_no_punctuation (z : list ascii) :
  Forall not_punctuation (clean_chars z).
Proof.
  unfold clean_chars. apply join_chars_all; [reflexivity|].
  eapply Forall_impl; [|apply clean_chars_words].
  intros w [_ Hw]. eapply Forall_impl; [|exact Hw]. intros c [_ Hc]. exact Hc.
Qed.

Lemma filter_all {A} (f : A -> bool) (l : list A) :
  Forall (fun a => f a = true) l -> filter f l = l.
Proof.
  induction 1 as [|a l Ha _ IH]; simpl; [reflexivity|].
  rewrite Ha, IH. reflexivity.
Qed.

Lemma clean_chars_strip (z : list ascii) :
  strip_chars (clean_chars z) = clean_chars z.
Proof.
  unfold strip_chars, clean_chars.
  rewrite (lstrip_chars_join not_punctuation) by apply clean_chars_words.
  apply (rstrip_chars_join not_punctuation), clean_chars_words.
Qed.

Lemma clean_chars_clean (z : list ascii) :
  clean_chars (clean_chars z) = clean_chars z.
Proof.
  unfold clean_chars at 1.
  rewrite filter_all.
  - unfold clean_chars.
    rewrite (split_join_chars not_punctuation) by apply clean_chars_words.
    reflexivity.
  - eapply Forall_impl; [|apply clean_chars_no_punctuation].
    intros c Hc. unfold not_punctuation in Hc. rewrite Hc. reflexivity.
Qed.

Lemma list_ascii_of_string_app (a b : string) :
  list_ascii_of_string (a ++ b) = list_ascii_of_string a ++ list_ascii_of_string b.
Proof.
  induction a as [|c a IH]; simpl; [reflexivity|]. rewrite IH. reflexivity.
Qed.

Lemma remove_punctuations_twice (box : string) :
  snd (remove_punctuations (snd (remove_punctuations box)))
  = snd (remove_punctuations box).
Proof.
  unfold remove_punctuations at 2 3.
  destruct (String.eqb (strip (text_entry_get box)) "") eqn:E; simpl snd.
  - unfold remove_punctuations. rewrite E. reflexivity.
  - set (y := clean_chars (list_ascii_of_string (strip (text_entry_get box)))).
    unfold remove_punctuations.
    assert (Hs : strip (text_entry_get (string_of_list_ascii y)) = string_of_list_ascii y).
    { unfold strip, text_entry_get.
      rewrite list_ascii_of_string_app, list_ascii_of_string_of_list_ascii.
      simpl list_ascii_of_string.
      rewrite strip_chars_snoc by reflexivity.
      unfold y. rewrite clean_chars_strip. reflexivity. }
    rewrite Hs.
    destruct (String.eqb (string_of_list_ascii y) ""); simpl snd; [reflexivity|].
    rewrite list_ascii_of_string_of_list_ascii.
    unfold y. rewrite clean_chars_clean. reflexivity.
Qed.

(** C6.  The query normalisation is idempotent: normalising a normalised
    text changes nothing, both for the pure pipeline [normalize] (strip, drop
    every [string.punctuation] character, collapse whitespace runs to single
    spaces) and for [remove_punctuations] acting on the query box; the
    result holds no punctuation character; ["a, b!  c"] becomes ["a b c"]
    and the empty text stays empty. *)
Theorem normalize_idempotent :
  (forall x, normalize (normalize x) = normalize x)
  /\ (forall box, snd (remove_punctuations (snd (remove_punctuations box)))
                  = snd (remove_punctuations box))
  /\ (forall x, forallb (fun c => negb (is_punctuation c))
                        (list_ascii_of_string (normalize x)) = true)
  /\ normalize "a, b!  c" = "a b c"
  /\ snd (remove_punctuations "a, b!  c") = "a b c"
  /\ normalize "" = ""
  /\ snd (remove_punctuations "") = "".
Proof.
  split; [|split; [|split; [|repeat split]]].
  - intros x. unfold normalize.
    rewrite list_ascii_of_string_of_list_ascii, clean_chars_strip, clean_chars_clean.
    reflexivity.
  - exact remove_punctuations_twice.
  - intros x. unfold normalize. rewrite list_ascii_of_string_of_list_ascii.
    apply forallb_forall. intros c Hc.
    pose proof (clean_chars_no_punctuation
                  (strip_chars (list_ascii_of_string x))) as H.
    rewrite Forall_forall in H. rewrite (H c Hc). reflexivity.
Qed.

(* ================================================================== *)
(** ** Prefixes, suffixes and substrings *)

Lemma startswith_spec (s p : string) :
  startswith s p = true <-> exists post, s = (p ++ post)%string.
Proof.
  revert s. induction p as [|b p IH]; intros s; simpl.
  - split; [intros _; exists s; reflexivity|reflexivity].
  - destruct s as [|a s]; simpl.
    + split; [discriminate|intros [post H]; discriminate].
    + rewrite andb_true_iff, Ascii.eqb_eq, IH. split.
      * intros [-> [post ->]]. exists post. reflexivity.
      * intros [post H]. injection H as -> ->. split; [reflexivity|eauto].
Qed.

Lemma py_in_spec (needle hay : string) :
  py_in needle hay = true
  <-> exists pre post, hay = (pre ++ needle ++ post)%string.
Proof.
  induction hay as [|a hay IH].
  - simpl. rewrite orb_false_r, startswith_spec. split.
    + intros [post H]. exists "", post. exact H.
    + intros [pre [post H]]. destruct pre; [eauto|discriminate].
  - change (py_in needle (String a hay))
      with (startswith (String a hay) needle || py_in needle hay).
    rewrite orb_true_iff, startswith_spec, IH. split.
    + intros [[post H]|[pre [post H]]].
      * exists "", post. exact H.
      * exists (String a pre), post. rewrite H. reflexivity.
    + intros [pre [post H]]. destruct pre as [|b pre].
      * left. exists post. exact H.
      * right. injection H as _ H. eauto.
Qed.

Lemma endswith_spec (s suf : string) :
  endswith s suf = true <-> exists pre, s = (pre ++ suf)%string.
Proof.
  induction s as [|a s IH].
  - change (endswith "" suf) with (String.eqb "" suf || false).
    rewrite orb_false_r, String.eqb_eq. split.
    + intros <-. exists "". reflexivity.
    + intros [pre H]. destruct pre; [exact H|discriminate].
  - change (endswith (String a s) suf)
      with (String.eqb (String a s) suf || endswith s suf).
    rewrite orb_true_iff, String.eqb_eq, IH. split.
    + intros [<-|[pre ->]]; [exists ""|exists (String a pre)]; reflexivity.
    + intros [pre H]. destruct pre as [|b pre].
      * left. exact H.
      * right. injection H as _ H. eauto.
Qed.

(** ** Extensions of plain file names *)

Lemma rfind_app_dot (stem ext : string) :
  rfind "." ext = None ->
  rfind "." (stem ++ String "." ext) = Some (String.length stem).
Proof.
  intros Hext. induction stem as [|a stem IH]; simpl.
  - rewrite Hext. reflexivity.
  - rewrite IH. reflexivity.
Qed.

Lemma rfind_app_none (c : ascii) (a b : string) :
  rfind c a = None -> rfind c b = None -> rfind c (a ++ b) = None.
Proof.
  intros Ha Hb. induction a as [|x a IH]; simpl in *; [exact Hb|].
  destruct (rfind c a); [discriminate|].
  rewrite IH by reflexivity. exact Ha.
Qed.

Lemma substring_prefix (a b : string) :
  substring 0 (String.length a) (a ++ b) = a.
Proof.
  induction a as [|x a IH]; simpl.
  - destruct b; reflexivity.
  - rewrite IH. reflexivity.
Qed.

Lemma substring_suffix (a b : string) :
  substring (String.length a) (String.length (a ++ b) - String.length a) (a ++ b) = b.
Proof.
  induction a as [|x a IH]; simpl.
  - rewrite Nat.sub_0_r. clear. induction b as [|y b IH]; simpl; [reflexivity|].
    rewrite IH. reflexivity.
  - exact IH.
Qed.

(** A name whose stem holds no separator and some character other than a
    dot splits at its last dot. *)
Lemma splitext_plain (stem ext : string) :
  rfind "/" stem = None -> rfind "/" (String "." ext) = None ->
  rfind "." ext = None ->
  existsb (fun a => negb (Ascii.eqb a ".")) (list_ascii_of_string stem) = true ->
  splitext (stem ++ String "." ext) = (stem, String "." ext).
Proof.
  intros Hs He Hd Hx. unfold splitext.
  rewrite (rfind_app_none _ _ _ Hs He), (rfind_app_dot _ _ Hd).
  unfold has_other_than. rewrite Nat.sub_0_r, substring_prefix, Hx.
  simpl andb. cbv iota. rewrite substring_suffix. reflexivity.
Qed.

(* ================================================================== *)
(** ** Linear metadata search *)

Section SearchProperties.
Context {J : PyJson}.

Lemma keyframe_records_length (d : Doc) (v folder : string) (i : nat) (fs : list string) :
  List.length (keyframe_records d v folder i fs) = List.length fs.
Proof.
  revert i. induction fs as [|f fs IH]; intros i; simpl; [reflexivity|].
  rewrite IH. reflexivity.
Qed.

Lemma keyframe_records_frame_ids (d : Doc) (v folder : string) (i : nat) (fs : list string) :
  map frame_id (keyframe_records d v folder i fs) = map (fun f => fst (splitext f)) fs.
Proof.
  revert i. induction fs as [|f fs IH]; intros i; simpl; [reflexivity|].
  rewrite IH. reflexivity.
Qed.

Lemma keyframe_records_numbers (d : Doc) (v folder : string) (i : nat) (fs : list string) :
  map frame_number (keyframe_records d v folder i fs)
  = map Some (seq i (List.length fs)).
Proof.
  revert i. induction fs as [|f fs IH]; intros i; simpl; [reflexivity|].
  rewrite IH. reflexivity.
Qed.

Lemma keyframe_records_video (d : Doc) (v folder : string) (i : nat) (fs : list string) :
  Forall (fun r => video_name r = Some v) (keyframe_records d v folder i fs).
Proof.
  revert i. induction fs as [|f fs IH]; intros i; simpl; constructor.
  - reflexivity.
  - apply IH.
Qed.

Lemma keyframe_records_paths (d : Doc) (v folder : string) (i : nat) (fs : list string) :
  map keyframe_path (keyframe_records d v folder i fs)
  = map (fun f => Some (path_join folder f)) fs.
Proof.
  revert i. induction fs as [|f fs IH]; intros i; simpl; [reflexivity|].
  rewrite IH. reflexivity.
Qed.

(** Every record a metadata file contributes carries the video id derived
    from the name of that file. *)
Lemma process_media_file_video (dbp : string) (root : option (fsnode Content))
    (q f : string) :
  Forall (fun r => video_name r = Some (fst (splitext f)))
         (process_media_file dbp root q f).
Proof.
  unfold process_media_file.
  destruct (lookup (lookup root "media-info") f) as [[content|]|]; try constructor.
  destruct (json_load content) as [d|]; try constructor.
  destruct (matches q d); try constructor.
  destruct (lookup (lookup root "keyframes") (fst (splitext f))) as [node|];
    try constructor.
  destruct (listdir _ node); try constructor.
  apply keyframe_records_video.
Qed.

Lemma filter_of_video_all (v : string) (l : list result) :
  Forall (fun r => video_name r = Some v) l -> filter (of_video v) l = l.
Proof.
  intros H. apply filter_all. eapply Forall_impl; [|exact H].
  intros r Hr. unfold of_video. rewrite Hr. apply String.eqb_refl.
Qed.

Lemma filter_of_video_none (v v' : string) (l : list result) :
  v' <> v -> Forall (fun r => video_name r = Some v') l -> filter (of_video v) l = [].
Proof.
  intros Hne. induction 1 as [|r l Hr _ IH]; simpl; [reflexivity|].
  unfold of_video at 1. rewrite Hr.
  destruct (String.eqb_spec v' v); [contradiction|exact IH].
Qed.

Lemma filter_of_video_others (dbp : string) (root : option (fsnode Content))
    (q v : string) (fs : list string) :
  (forall f, In f fs -> fst (splitext f) <> v) ->
  filter (of_video v) (flat_map (process_media_file dbp root q) fs) = [].
Proof.
  induction fs as [|f fs IH]; intros H; simpl; [reflexivity|].
  rewrite filter_app, IH by (intros g Hg; apply H; right; exact Hg).
  rewrite (filter_of_video_none v (fst (splitext f))).
  - reflexivity.
  - apply H. left. reflexivity.
  - apply process_media_file_video.
Qed.

(** C1.  When the media-info listing holds a metadata file that parses and
    matches the query, and the keyframe directory of its video id lists at
    least ten [.jpg] files, the search returns, between the records of the
    files listed before and after it, a block of exactly ten records for
    that file: built from the first ten [.jpg] names in listing order, with
    [frame_id] the name without extension, [video_name] the video id and
    [frame_number] the positions 0..9.  If no other metadata file yields
    the same video id, these ten are all the records of that video. *)
Theorem search_emits_first_ten_keyframes
    (dbp : string) (root : option (fsnode Content)) (q : string)
    (mi_entries : list (string * fsnode Content))
    (before after : list string) (media_file : string)
    (content : Content) (doc : Doc)
    (kf_entries : list (string * fsnode Content)) :
  lookup root "media-info" = Some (Dir mi_entries) ->
  filter (fun f => endswith f ".json") (map fst mi_entries)
    = before ++ media_file :: after ->
  find_entry media_file mi_entries = Some (File content) ->
  json_load content = Some doc ->
  matches q doc = true ->
  lookup (lookup root "keyframes") (fst (splitext media_file)) = Some (Dir kf_entries) ->
  10 <= List.length (jpg_files (map fst kf_entries)) ->
  let video := fst (splitext media_file) in
  let shown := firstn 10 (jpg_files (map fst kf_entries)) in
  exists results block,
    search_database_text dbp root q = Returned results
    /\ results = flat_map (process_media_file dbp root q) before
                 ++ block
                 ++ flat_map (process_media_file dbp root q) after
    /\ List.length block = 10
    /\ map frame_id block = map (fun f => fst (splitext f)) shown
    /\ Forall (fun r => video_name r = Some video) block
    /\ map frame_number block = map Some (seq 0 10)
    /\ ((forall f, In f (before ++ after) -> fst (splitext f) <> video) ->
        filter (of_video video) results = block).
Proof.
  intros Hmi Hlist Hfile Hload Hmatch Hkf Hten video shown.
  assert (Hlen : List.length shown = 10).
  { unfold shown. rewrite length_firstn. lia. }
  assert (Hblock : process_media_file dbp root q media_file
                   = keyframe_records doc video
                       (path_join (path_join dbp "keyframes") video) 0 shown).
  { unfold process_media_file. rewrite Hmi. simpl lookup at 1.
    rewrite Hfile, Hload. cbv zeta. rewrite Hmatch, Hkf. reflexivity. }
  eexists. exists (process_media_file dbp root q media_file).
  split; [|split; [|split; [|split; [|split; [|split]]]]].
  - unfold search_database_text. rewrite Hmi. simpl listdir. cbv iota.
    rewrite Hlist. reflexivity.
  - rewrite flat_map_app. reflexivity.
  - rewrite Hblock, keyframe_records_length. exact Hlen.
  - rewrite Hblock. apply keyframe_records_frame_ids.
  - apply process_media_file_video.
  - rewrite Hblock, keyframe_records_numbers, Hlen. reflexivity.
  - intros Hother. rewrite flat_map_app. simpl flat_map.
    rewrite !filter_app.
    rewrite !filter_of_video_others
      by (intros f Hf; apply Hother, in_or_app; tauto).
    rewrite filter_of_video_all by apply process_media_file_video.
    rewrite app_nil_r. reflexivity.
Qed.

End SearchProperties.

Lemma search_emits_first_ten_keyframes_witness :
  exists results,
    search_database_text (J := json_documents) "db" example_store "cat" = Returned results
    /\ List.length results = 10
    /\ map frame_id results
       = ["001"; "002"; "003"; "004"; "005"; "006"; "007"; "008"; "009"; "010"]
    /\ map frame_number results = map Some (seq 0 10).
Proof.
  destruct (search_emits_first_ten_keyframes (J := json_documents)
              "db" example_store "cat"
              [("v1.json", File (Some (JDict [("title", JStr "cat video")])))]
              [] [] "v1.json"
              (Some (JDict [("title", JStr "cat video")]))
              (JDict [("title", JStr "cat video")])
              v1_keyframes
              eq_refl eq_refl eq_refl eq_refl eq_refl eq_refl)
    as (results & block & Hs & Hr & Hl & Hf & _ & Hn & _).
  - vm_compute. repeat constructor.
  - exists results. simpl in Hr. rewrite app_nil_r in Hr. subst results.
    repeat split; assumption.
Defined.

Section SearchOutcomes.
Context {J : PyJson}.

(** A file that cannot be opened or parsed, or whose document does not
    match, contributes nothing. *)
Lemma process_media_file_nil (dbp : string) (root : option (fsnode Content))
    (q f : string) :
  (forall content doc,
      lookup (lookup root "media-info") f = Some (File content) ->
      json_load content = Some doc -> matches q doc = false) ->
  process_media_file dbp root q f = [].
Proof.
  intros H. unfold process_media_file.
  destruct (lookup (lookup root "media-info") f) as [[content|]|]; try reflexivity.
  destruct (json_load content) as [d|] eqn:E; try reflexivity.
  rewrite (H content d eq_refl E). reflexivity.
Qed.

Lemma flat_map_nil {A B} (f : A -> list B) (l : list A) :
  (forall a, In a l -> f a = []) -> flat_map f l = [].
Proof.
  induction l as [|a l IH]; intros H; simpl; [reflexivity|].
  rewrite (H a) by (left; reflexivity).
  apply IH. intros b Hb. apply H. right. exact Hb.
Qed.

(** C3.  With the media-info collection present: a document matches
    exactly when the lower-cased query is a substring of the lower-cased
    [str] of the parsed document; a file whose document does not match
    contributes no record; the result is the concatenation, in listing
    order, of what each metadata file contributes (no ranking); and when no
    document matches the search returns the empty list. *)
Theorem search_match_rule
    (dbp : string) (root : option (fsnode Content)) (q : string)
    (mi_entries : list (string * fsnode Content)) :
  lookup root "media-info" = Some (Dir mi_entries) ->
  let media_files := filter (fun f => endswith f ".json") (map fst mi_entries) in
  (forall doc,
      matches q doc = true
      <-> exists pre post, lower (py_str doc) = (pre ++ lower q ++ post)%string)
  /\ (forall f content doc,
         find_entry f mi_entries = Some (File content) ->
         json_load content = Some doc ->
         matches q doc = false ->
         process_media_file dbp root q f = [])
  /\ search_database_text dbp root q
     = Returned (flat_map (process_media_file dbp root q) media_files)
  /\ ((forall f content doc,
          In f media_files ->
          find_entry f mi_entries = Some (File content) ->
          json_load content = Some doc ->
          matches q doc = false) ->
      search_database_text dbp root q = Returned []).
Proof.
  intros Hmi media_files.
  assert (Hsearch : search_database_text dbp root q
                    = Returned (flat_map (process_media_file dbp root q) media_files)).
  { unfold search_database_text. rewrite Hmi. reflexivity. }
  split; [|split; [|split]].
  - intros doc. apply py_in_spec.
  - intros f content doc Hf Hload Hno.
    apply process_media_file_nil. intros c d Hc Hd.
    rewrite Hmi in Hc. simpl in Hc. congruence.
  - exact Hsearch.
  - intros Hnone. rewrite Hsearch. f_equal.
    apply flat_map_nil. intros f Hf.
    apply process_media_file_nil. intros c d Hc Hd.
    rewrite Hmi in Hc. simpl in Hc. exact (Hnone f c d Hf Hc Hd).
Qed.

(** C4.  With no media-info entry under the dataset root the search raises
    ("Media info folder not found in database", wrapped as a failed database
    search): the call fails, it returns no list, in particular not the
    empty one. *)
Theorem search_fails_without_media_info
    (dbp : string) (root : option (fsnode Content)) (q : string) :
  lookup root "media-info" = None ->
  search_database_text dbp root q
  = Raised (PyException
              "Database search failed: Media info folder not found in database")
  /\ search_database_text dbp root q <> Returned []
  /\ (forall results, search_database_text dbp root q <> Returned results).
Proof.
  intros Hmi.
  assert (Hraise : search_database_text dbp root q
                   = Raised (PyException
                       "Database search failed: Media info folder not found in database")).
  { unfold search_database_text. rewrite Hmi. reflexivity. }
  split; [exact Hraise|]. split; [rewrite Hraise; discriminate|].
  intros results. rewrite Hraise. discriminate.
Qed.

End SearchOutcomes.

Lemma search_match_rule_witness :
  search_database_text (J := json_documents) "db" example_store "dog" = Returned []
  /\ matches (J := json_documents) "dog" (JDict [("title", JStr "cat video")]) = false.
Proof.
  split; [|reflexivity].
  refine (proj2 (proj2 (proj2
            (search_match_rule (J := json_documents) "db" example_store "dog"
               [("v1.json", File (Some (JDict [("title", JStr "cat video")])))]
               eq_refl))) _).
  intros f content doc Hin Hfind Hload.
  destruct Hin as [<-|[]].
  injection Hfind as <-. injection Hload as <-. reflexivity.
Defined.

Lemma search_fails_without_media_info_witness :
  search_database_text (J := json_documents)
    "db" (Some (Dir [("keyframes", Dir [("v1", Dir v1_keyframes)])])) "cat"
  = Raised (PyException
              "Database search failed: Media info folder not found in database").
Proof.
  exact (proj1 (search_fails_without_media_info (J := json_documents)
                  "db" (Some (Dir [("keyframes", Dir [("v1", Dir v1_keyframes)])]))
                  "cat" eq_refl)).
Defined.

(* ================================================================== *)
(** ** Result set *)

Section ResultSetProperties.
Context {J : PyJson}.

Lemma mem_In (x : string) (xs : list string) : mem x xs = true <-> In x xs.
Proof.
  unfold mem. rewrite existsb_exists. split.
  - intros [y [Hy E]]. apply String.eqb_eq in E. subst. exact Hy.
  - intros H. exists x. split; [exact H|apply String.eqb_refl].
Qed.

Lemma mem_false (x : string) (xs : list string) : ~ In x xs -> mem x xs = false.
Proof.
  intros H. destruct (mem x xs) eqn:E; [|reflexivity].
  apply mem_In in E. contradiction.
Qed.

Lemma remove_first_In (x y : string) (xs : list string) :
  In y (remove_first x xs) -> In y xs.
Proof.
  induction xs as [|z xs IH]; simpl; [tauto|].
  destruct (String.eqb z x); simpl; tauto.
Qed.

Lemma toggle_selection_valid (fid : string) (on : bool) (st : ui) :
  selection_valid st ->
  on = false \/ In fid (map frame_id (retrieved_images st)) ->
  selection_valid (toggle_selection fid on st).
Proof.
  intros Hv Hcase. unfold toggle_selection.
  destruct (on && negb (mem fid (selected_images st))) eqn:E1.
  - intros x Hx. simpl in *. apply in_app_or in Hx.
    destruct Hx as [Hx|[<-|[]]]; [apply Hv, Hx|].
    destruct Hcase as [->|Hin]; [discriminate|exact Hin].
  - destruct (negb on && mem fid (selected_images st)); [|exact Hv].
    intros x Hx. simpl in *. apply Hv. eapply remove_first_In, Hx.
Qed.

(** Along every run of the interface, started as [__init__] leaves it, the
    selection is valid: the checkboxes only ever pass ids of displayed
    records. *)
Lemma selection_valid_along_run (events : list ui_event) :
  selection_valid (fold_left handle events initial_ui).
Proof.
  assert (Hstep : forall st e, selection_valid st -> selection_valid (handle st e)).
  { intros st e Hv. destruct e as [results|i var| | |]; simpl.
    - intros fid [].
    - destruct (nth_error (retrieved_images st) i) as [frame_data|] eqn:E; [|exact Hv].
      apply toggle_selection_valid; [exact Hv|].
      right. apply in_map. exact (nth_error_In _ _ E).
    - intros fid H. exact H.
    - intros fid [].
    - intros fid []. }
  assert (Hrun : forall st, selection_valid st ->
                            selection_valid (fold_left handle events st)).
  { induction events as [|e events IH]; intros st Hv; simpl; [exact Hv|].
    apply IH, Hstep, Hv. }
  apply Hrun. intros fid [].
Qed.

(** C8 (as the code has it).  The selection stays valid -- every selected
    id is the [frame_id] of a current record -- under replacing the records
    (which empties the selection), select-all, clear-selection and
    clear-all, and under [toggle_selection] when the flag is off or the id
    belongs to a current record, which is how every checkbox calls it. *)
Theorem selection_valid_preserved (st : ui) :
  selection_valid st ->
  (forall records,
      selected_images (_update_results records st) = []
      /\ retrieved_images (_update_results records st) = records
      /\ selection_valid (_update_results records st))
  /\ selection_valid (select_all st)
  /\ selection_valid (clear_selection st)
  /\ retrieved_images (clear_selection st) = retrieved_images st
  /\ selection_valid (clear_all_inputs st)
  /\ (forall fid on,
         on = false \/ In fid (map frame_id (retrieved_images st)) ->
         selection_valid (toggle_selection fid on st))
  /\ (forall frame_data var,
         In frame_data (retrieved_images st) ->
         selection_valid (checkbox_command frame_data var st)).
Proof.
  intros Hv. repeat split.
  - intros fid [].
  - intros fid H. exact H.
  - intros fid [].
  - intros fid [].
  - intros fid on Hcase. apply toggle_selection_valid; assumption.
  - intros frame_data var Hin. apply toggle_selection_valid; [exact Hv|].
    right. apply in_map. exact Hin.
Qed.

(** C9 (as the code has it).  For an id that no current record carries, in
    a result set whose selection is valid: switching it off changes
    nothing, switching it on appends it to the selection, since
    [toggle_selection] never looks at the records. *)
Theorem toggle_absent_frame (st : ui) (fid : string) :
  ~ In fid (map frame_id (retrieved_images st)) ->
  selection_valid st ->
  toggle_selection fid false st = st
  /\ selected_images (toggle_selection fid true st) = selected_images st ++ [fid]
  /\ retrieved_images (toggle_selection fid true st) = retrieved_images st.
Proof.
  intros Habsent Hv.
  assert (Hm : mem fid (selected_images st) = false).
  { apply mem_false. intros H. apply Habsent, Hv, H. }
  unfold toggle_selection. rewrite Hm. simpl. repeat split.
Qed.

End ResultSetProperties.

(** C8, counterexample.  With the mock records shown and nothing selected,
    switching on an id no record carries leaves a selected id without a
    record. *)
Lemma toggle_selection_breaks_validity :
  selection_valid mock_ui
  /\ ~ selection_valid (toggle_selection "img_000" true mock_ui).
Proof.
  split.
  - intros fid [].
  - intros H. specialize (H "img_000" (or_introl eq_refl)).
    vm_compute in H.
    repeat (destruct H as [H|H]; [discriminate H|]). exact H.
Qed.

(** C9, counterexample.  The id is absent from the records, yet switching it
    on changes the selection. *)
Lemma toggle_absent_frame_selects :
  ~ In "img_000" (map frame_id (retrieved_images mock_ui))
  /\ selected_images (toggle_selection "img_000" true mock_ui) = ["img_000"]
  /\ selected_images (toggle_selection "img_000" true mock_ui)
     <> selected_images mock_ui.
Proof.
  split; [|split; [reflexivity|discriminate]].
  intros H. vm_compute in H.
  repeat (destruct H as [H|H]; [discriminate H|]). exact H.
Qed.

Lemma selection_valid_preserved_witness :
  selection_valid (select_all mock_ui)
  /\ selection_valid (toggle_selection "frame_0003" true mock_ui).
Proof.
  assert (Hv : selection_valid mock_ui) by (intros fid []).
  destruct (selection_valid_preserved mock_ui Hv) as (_ & Hall & _ & _ & _ & Ht & _).
  split; [exact Hall|].
  apply Ht. right. vm_compute. tauto.
Defined.

Lemma toggle_absent_frame_witness :
  toggle_selection "img_000" false mock_ui = mock_ui
  /\ selected_images (toggle_selection "img_000" true mock_ui) = ["img_000"].
Proof.
  assert (Hv : selection_valid mock_ui) by (intros fid []).
  assert (Ha : ~ In "img_000" (map frame_id (retrieved_images mock_ui))).
  { intros H. vm_compute in H.
    repeat (destruct H as [H|H]; [discriminate H|]). exact H. }
  destruct (toggle_absent_frame mock_ui "img_000" Ha Hv) as (Hoff & Hon & _).
  split; [exact Hoff|exact Hon].
Defined.

(* ================================================================== *)
(** ** Export: validation and the KIS and QnA layouts *)

Lemma strip_blank (s : string) :
  forallb is_space (list_ascii_of_string s) = true -> strip s = "".
Proof.
  intros H. unfold strip, strip_chars.
  assert (E : lstrip_chars (list_ascii_of_string s) = []).
  { induction (list_ascii_of_string s) as [|c t IH]; [reflexivity|].
    simpl in *. apply andb_true_iff in H. destruct H as [Hc Ht].
    rewrite Hc. exact (IH Ht). }
  rewrite E. reflexivity.
Qed.

Section ExportProperties.
Context {J : PyJson}.

(** With a valid selection, no selected record means no selected id. *)
Lemma selected_data_nil (st : ui) :
  selection_valid st -> selected_data st = [] -> selected_images st = [].
Proof.
  intros Hv Hnil. destruct (selected_images st) as [|fid sel] eqn:E; [reflexivity|].
  exfalso. assert (Hin : In fid (map frame_id (retrieved_images st))).
  { apply Hv. rewrite E. left. reflexivity. }
  apply in_map_iff in Hin. destruct Hin as [r [Hr Hin]].
  assert (Hsel : In r (selected_data st)).
  { apply filter_In. split; [exact Hin|].
    apply mem_In. rewrite Hr, E. left. reflexivity. }
  rewrite Hnil in Hsel. exact Hsel.
Qed.

(** C5.  An export asked for with nothing selected (no selected id, or,
    the selection being valid, no selected record), or for the QnA task
    with an answer that is empty or only whitespace, ends in a warning and
    leaves the disk as it was: no directory is made, no file written. *)
Theorem export_rejected_before_io (base_dir timestamp : string) (st : ui) (d : disk) :
  selected_images st = []
  \/ (selection_valid st /\ selected_data st = [])
  \/ (current_task st = QnA
      /\ forallb is_space (list_ascii_of_string (answer_entry st)) = true) ->
  snd (generate_csv base_dir timestamp st d) = d
  /\ directories (snd (generate_csv base_dir timestamp st d)) = directories d
  /\ files (snd (generate_csv base_dir timestamp st d)) = files d
  /\ exists message,
       fst (generate_csv base_dir timestamp st d) = ShowWarning "Warning" message.
Proof.
  intros H.
  assert (Hcase : selected_images st = []
                  \/ (current_task st = QnA /\ strip (answer_entry st) = "")).
  { destruct H as [Hsel|[[Hv Hnil]|[Htask Hblank]]].
    - left. exact Hsel.
    - left. exact (selected_data_nil st Hv Hnil).
    - right. split; [exact Htask|exact (strip_blank _ Hblank)]. }
  assert (Hgen : snd (generate_csv base_dir timestamp st d) = d
                 /\ exists message,
                      fst (generate_csv base_dir timestamp st d)
                      = ShowWarning "Warning" message).
  { unfold generate_csv. destruct Hcase as [Hsel|[Htask Hblank]].
    - rewrite Hsel. split; [reflexivity|eexists; reflexivity].
    - rewrite Htask, Hblank.
      destruct (selected_images st); (split; [reflexivity|eexists; reflexivity]). }
  destruct Hgen as [Hd Hmsg]. rewrite Hd. repeat split. exact Hmsg.
Qed.

(** An export that passes validation does write: the file lands on disk
    with the rows of the task's layout, in place of whatever was at that
    path. *)
Lemma generate_csv_writes (base_dir timestamp : string) (st : ui) (d : disk) :
  selected_images st <> [] ->
  (current_task st = QnA -> strip (answer_entry st) <> "") ->
  exists filepath,
    fst (generate_csv base_dir timestamp st d)
    = ShowInfo "Success"
        ("CSV file generated successfully:" ++ String (ascii_of_nat 10) filepath)%string
    /\ files (snd (generate_csv base_dir timestamp st d))
       = (filepath,
          csv_rows (current_task st) (strip (answer_entry st)) (selected_data st))
         :: filter (fun f => negb (String.eqb (fst f) filepath)) (files d).
Proof.
  destruct st as [records selected t answer upload]. simpl.
  intros Hsel Hans. unfold generate_csv. simpl.
  destruct selected as [|s0 sel]; [congruence|].
  destruct t; try (eexists; split; reflexivity).
  destruct (strip answer) eqn:Es; [exfalso; apply Hans; reflexivity|].
  eexists. split; reflexivity.
Qed.

Lemma selected_data_ext (st : ui) (selected' : list string) :
  (forall fid, In fid (selected_images st) <-> In fid selected') ->
  selected_data (with_results st (retrieved_images st) selected') = selected_data st.
Proof.
  intros H. unfold selected_data. simpl. apply filter_ext. intros r.
  destruct (mem (frame_id r) (selected_images st)) eqn:E.
  - apply mem_In. apply H. apply mem_In. exact E.
  - apply mem_false. intros Hin. apply H in Hin. apply mem_In in Hin. congruence.
Qed.

(** C10.  For the KIS and QnA tasks the rows written are one per record of
    the result set whose [frame_id] is among the selected ids, in the order
    of the records: the frame-id column is the id list of the records with
    the unselected ones dropped, every record with a selected id gives its
    row (also when several records share that id), and the order in which
    the ids were selected plays no part. *)
Theorem kis_qna_rows_follow_records (st : ui) (answer : string) :
  let chosen := filter (fun r => mem (frame_id r) (selected_images st))
                       (retrieved_images st) in
  csv_rows KIS answer (selected_data st)
  = map (fun r => [export_video_name r; frame_id r]) chosen
  /\ csv_rows QnA answer (selected_data st)
     = map (fun r => [export_video_name r; frame_id r; answer]) chosen
  /\ map (fun r => nth 1 r "") (csv_rows KIS answer (selected_data st))
     = filter (fun fid => mem fid (selected_images st))
              (map frame_id (retrieved_images st))
  /\ map (fun r => nth 1 r "") (csv_rows QnA answer (selected_data st))
     = filter (fun fid => mem fid (selected_images st))
              (map frame_id (retrieved_images st))
  /\ (forall r, In r (retrieved_images st) ->
                In (frame_id r) (selected_images st) ->
                In [export_video_name r; frame_id r]
                   (csv_rows KIS answer (selected_data st))
                /\ In [export_video_name r; frame_id r; answer]
                      (csv_rows QnA answer (selected_data st)))
  /\ (forall t selected',
         (forall fid, In fid (selected_images st) <-> In fid selected') ->
         csv_rows t answer
                  (selected_data (with_results st (retrieved_images st) selected'))
         = csv_rows t answer (selected_data st)).
Proof.
  intros chosen.
  assert (Hcol : forall (f : result -> list string),
             (forall r, nth 1 (f r) "" = frame_id r) ->
             map (fun r => nth 1 r "") (map f chosen)
             = filter (fun fid => mem fid (selected_images st))
                      (map frame_id (retrieved_images st))).
  { intros f Hf. rewrite map_map. unfold chosen.
    induction (retrieved_images st) as [|r l IH]; simpl; [reflexivity|].
    destruct (mem (frame_id r) (selected_images st)); simpl; rewrite IH; [|reflexivity].
    rewrite Hf. reflexivity. }
  split; [reflexivity|]. split; [reflexivity|].
  split; [apply (Hcol (fun r => [export_video_name r; frame_id r])); reflexivity|].
  split; [apply (Hcol (fun r => [export_video_name r; frame_id r; answer])); reflexivity|].
  split.
  - intros r Hr Hsel.
    assert (Hc : In r (selected_data st)).
    { apply filter_In. split; [exact Hr|apply mem_In, Hsel]. }
    split.
    + exact (in_map (fun r => [export_video_name r; frame_id r]) _ _ Hc).
    + exact (in_map (fun r => [export_video_name r; frame_id r; answer]) _ _ Hc).
  - intros t selected' H. rewrite selected_data_ext by exact H. reflexivity.
Qed.

End ExportProperties.

Lemma export_rejected_before_io_witness :
  let st := {| retrieved_images := mock_results (J := json_documents);
               selected_images := ["frame_0001"];
               current_task := QnA;
               answer_entry := "  ";
               uploaded_txt_file := None |} in
  let d := {| directories := []; files := [] |} in
  snd (generate_csv "/app" "20250101_120000" st d) = d.
Proof.
  intros st d.
  exact (proj1 (export_rejected_before_io "/app" "20250101_120000" st d
                  (or_intror (or_intror (conj eq_refl eq_refl))))).
Defined.

Lemma kis_qna_rows_follow_records_witness :
  let st := {| retrieved_images := mock_results (J := json_documents);
               selected_images := ["frame_0007"; "frame_0002"];
               current_task := KIS;
               answer_entry := "";
               uploaded_txt_file := None |} in
  csv_rows KIS "" (selected_data (with_results st (retrieved_images st)
                                    ["frame_0002"; "frame_0007"]))
  = [["sample_video_1.mp4"; "frame_0002"]; ["sample_video_2.mp4"; "frame_0007"]].
Proof.
  intros st.
  destruct (kis_qna_rows_follow_records st "") as (_ & _ & _ & _ & _ & Hperm).
  rewrite (Hperm KIS ["frame_0002"; "frame_0007"]).
  - reflexivity.
  - intros fid. simpl. tauto.
Defined.

(* ================================================================== *)
(** ** Export: the TRAKE layout *)

Lemma distinct_In (x : string) (l : list string) : In x (distinct l) <-> In x l.
Proof.
  induction l as [|a l IH]; simpl; [tauto|].
  rewrite filter_In, IH. destruct (String.eqb_spec x a) as [->|Hne].
  - tauto.
  - simpl. intuition congruence.
Qed.

Lemma distinct_NoDup (l : list string) : NoDup (distinct l).
Proof.
  induction l as [|a l IH]; simpl; constructor.
  - rewrite filter_In, String.eqb_refl. simpl. intros [_ H]. discriminate.
  - apply NoDup_filter, IH.
Qed.

Lemma distinct_snoc (l : list string) (v : string) :
  distinct (l ++ [v]) = if mem v l then distinct l else distinct l ++ [v].
Proof.
  induction l as [|a l IH]; [reflexivity|].
  change (distinct ((a :: l) ++ [v]))
    with (a :: filter (fun y => negb (String.eqb y a)) (distinct (l ++ [v]))).
  change (mem v (a :: l)) with (String.eqb v a || mem v l).
  rewrite IH. destruct (mem v l).
  - rewrite orb_true_r. reflexivity.
  - rewrite orb_false_r, filter_app. simpl.
    destruct (String.eqb v a); simpl; [rewrite app_nil_r|]; reflexivity.
Qed.

Section TrakeProperties.
Context {J : PyJson}.

Lemma frames_of_snoc (k : string) (data : list result) (x : result) :
  frames_of k (data ++ [x])
  = frames_of k data
    ++ (if String.eqb (export_video_name x) k then [frame_id x] else []).
Proof.
  unfold frames_of. rewrite filter_app, map_app. simpl.
  destruct (String.eqb (export_video_name x) k); reflexivity.
Qed.

Lemma frames_of_absent (k : string) (data : list result) :
  ~ In k (map export_video_name data) -> frames_of k data = [].
Proof.
  unfold frames_of. induction data as [|r data IH]; intros H; simpl; [reflexivity|].
  destruct (String.eqb_spec (export_video_name r) k) as [E|_].
  - exfalso. apply H. left. exact E.
  - apply IH. intros Hin. apply H. right. exact Hin.
Qed.

Lemma add_frame_absent (F : string -> list string) (ks : list string) (v fid : string) :
  ~ In v ks ->
  add_frame (map (fun k => (k, F k)) ks) v fid
  = map (fun k => (k, F k)) ks ++ [(v, [fid])].
Proof.
  induction ks as [|k ks IH]; intros H; simpl; [reflexivity|].
  destruct (String.eqb_spec k v) as [E|_].
  - exfalso. apply H. left. exact E.
  - rewrite IH; [reflexivity|]. intros Hin. apply H. right. exact Hin.
Qed.

Lemma add_frame_present (F : string -> list string) (ks : list string) (v fid : string) :
  NoDup ks -> In v ks ->
  add_frame (map (fun k => (k, F k)) ks) v fid
  = map (fun k => (k, F k ++ (if String.eqb v k then [fid] else []))) ks.
Proof.
  induction ks as [|k ks IH]; intros Hnd Hin; [destruct Hin|].
  inversion Hnd as [|? ? Hk Hks]; subst. simpl.
  destruct (String.eqb_spec k v) as [->|Hne].
  - rewrite String.eqb_refl. f_equal.
    apply map_ext_in. intros k' Hk'.
    destruct (String.eqb_spec v k') as [->|_]; [contradiction|].
    rewrite app_nil_r. reflexivity.
  - destruct (String.eqb_spec v k) as [E|_]; [congruence|].
    rewrite app_nil_r. f_equal. apply IH; [exact Hks|].
    destruct Hin as [E|Hin]; [congruence|exact Hin].
Qed.

(** The dictionary built by the grouping loop holds, for each distinct
    video name in first-occurrence order, the frame ids of its records. *)
Lemma group_by_video_spec (data : list result) :
  group_by_video data
  = map (fun v => (v, frames_of v data)) (distinct (map export_video_name data)).
Proof.
  induction data as [|x data IH] using rev_ind; [reflexivity|].
  unfold group_by_video in *. rewrite fold_left_app. simpl. rewrite IH.
  rewrite map_app. simpl map. rewrite distinct_snoc.
  set (v := export_video_name x).
  set (ks := distinct (map export_video_name data)).
  destruct (mem v (map export_video_name data)) eqn:E.
  - rewrite add_frame_present.
    + apply map_ext. intros k. rewrite frames_of_snoc. reflexivity.
    + apply distinct_NoDup.
    + apply distinct_In, mem_In, E.
  - assert (Hv : ~ In v (map export_video_name data)).
    { intros H. apply mem_In in H. congruence. }
    rewrite add_frame_absent by (unfold ks; rewrite distinct_In; exact Hv).
    rewrite map_app. simpl. f_equal.
    + apply map_ext_in. intros k Hk. rewrite frames_of_snoc. fold v.
      destruct (String.eqb_spec v k) as [<-|_].
      * exfalso. apply Hv. apply distinct_In. exact Hk.
      * rewrite app_nil_r. reflexivity.
    + rewrite frames_of_snoc, (frames_of_absent v data Hv). fold v.
      rewrite String.eqb_refl. reflexivity.
Qed.

Lemma list_max_bound (l : list nat) (n : nat) : In n l -> n <= list_max l.
Proof.
  intros H. pose proof (proj1 (list_max_le l (list_max l)) (le_n _)) as Hall.
  rewrite Forall_forall in Hall. exact (Hall n H).
Qed.

(** C2.  For the TRAKE task the rows written are one per distinct video
    name of the selected records, in order of first appearance; each row is
    the video name, then the frame ids of that video's selected records in
    the order of the selected records (not sorted), then empty fields up to
    the common width of one plus the size of the largest group.  Two
    records of video A and one of video B give two rows, the row of B
    padded with one empty field. *)
Theorem trake_rows_group_by_video (answer : string) (data : list result) :
  let names := distinct (map export_video_name data) in
  let width := list_max (map (fun v => List.length (frames_of v data)) names) in
  let rows := csv_rows TRAKE answer data in
  rows = map (fun v => v :: frames_of v data
                         ++ repeat "" (width - List.length (frames_of v data)))
             names
  /\ List.length rows = List.length names
  /\ map (fun r => hd "" r) rows = names
  /\ NoDup names
  /\ (forall v, In v names <-> In v (map export_video_name data))
  /\ Forall (fun r => List.length r = 1 + width) rows
  /\ csv_rows TRAKE answer
       [bare_record "A" "f9"; bare_record "B" "f5"; bare_record "A" "f3"]
     = [["A"; "f9"; "f3"]; ["B"; "f5"; ""]].
Proof.
  intros names width rows.
  assert (Hrows : rows
                  = map (fun v => v :: frames_of v data
                                    ++ repeat "" (width - List.length (frames_of v data)))
                        names).
  { unfold rows, csv_rows. destruct data as [|r data]; [reflexivity|].
    rewrite group_by_video_spec. unfold max_frames.
    rewrite !map_map. reflexivity. }
  split; [exact Hrows|].
  split; [rewrite Hrows; apply length_map|].
  split; [rewrite Hrows, map_map; apply map_id|].
  split; [apply distinct_NoDup|].
  split; [intros v; apply distinct_In|].
  split; [|reflexivity].
  rewrite Hrows. apply Forall_forall. intros r Hr.
  apply in_map_iff in Hr. destruct Hr as [v [<- Hv]].
  assert (Hle : List.length (frames_of v data) <= width).
  { apply list_max_bound.
    exact (in_map (fun v => List.length (frames_of v data)) _ _ Hv). }
  simpl. rewrite length_app, repeat_length. lia.
Qed.

End TrakeProperties.

(* ================================================================== *)
(** ** Frame ids within one result set *)

Lemma nodupb_NoDup (l : list string) : nodupb l = true -> NoDup l.
Proof.
  induction l as [|x t IH]; simpl; intros H; constructor.
  - apply andb_true_iff in H. destruct H as [H _].
    intros Hin. apply mem_In in Hin. rewrite Hin in H. discriminate.
  - apply IH. apply andb_true_iff in H. tauto.
Qed.

Lemma rfind_app_none_inv (c : ascii) (a b : string) :
  rfind c (a ++ b) = None -> rfind c a = None /\ rfind c b = None.
Proof.
  induction a as [|x a IH]; simpl; [tauto|].
  destruct (rfind c (a ++ b)); [discriminate|].
  destruct (IH eq_refl) as [-> Hb]. tauto.
Qed.

(** A plain name ending in [.ext] splits into its stem and [.ext]. *)
Lemma plain_splitext (f ext : string) :
  plain_name f = true -> endswith f (String "." ext) = true ->
  rfind "." ext = None ->
  exists stem, f = (stem ++ String "." ext)%string
               /\ splitext f = (stem, String "." ext).
Proof.
  intros Hplain Hend Hdot.
  apply endswith_spec in Hend. destruct Hend as [stem ->].
  exists stem. split; [reflexivity|].
  unfold plain_name in Hplain. apply andb_true_iff in Hplain.
  destruct Hplain as [Hsep Hlead].
  destruct (rfind "/" (stem ++ String "." ext)) eqn:E; [discriminate|].
  apply rfind_app_none_inv in E. destruct E as [Hs He].
  apply splitext_plain; try assumption.
  destruct stem as [|c stem]; simpl in *; [discriminate|].
  rewrite Hlead. reflexivity.
Qed.

Lemma stems_NoDup (ext : string) (names : list string) :
  rfind "." ext = None -> NoDup names ->
  Forall (fun f => plain_name f = true /\ endswith f (String "." ext) = true) names ->
  NoDup (map (fun f => fst (splitext f)) names).
Proof.
  intros Hdot Hnd Hall. rewrite Forall_forall in Hall.
  apply NoDup_map_NoDup_ForallPairs; [|exact Hnd].
  intros f g Hf Hg E.
  destruct (Hall f Hf) as [Pf Ef]. destruct (Hall g Hg) as [Pg Eg].
  destruct (plain_splitext f ext Pf Ef Hdot) as [sf [-> Sf]].
  destruct (plain_splitext g ext Pg Eg Hdot) as [sg [-> Sg]].
  rewrite Sf, Sg in E. simpl in E. subst. reflexivity.
Qed.

Lemma firstn_incl {A} (n : nat) (l : list A) (x : A) : In x (firstn n l) -> In x l.
Proof.
  intros H. rewrite <- (firstn_skipn n l). apply in_or_app. left. exact H.
Qed.

Lemma firstn_NoDup {A} (n : nat) (l : list A) : NoDup l -> NoDup (firstn n l).
Proof.
  intros H. rewrite <- (firstn_skipn n l) in H.
  exact (NoDup_app_remove_r _ _ H).
Qed.

Lemma plain_listing_names {C} (entries : list (string * fsnode C)) (ext : string) :
  plain_listing entries = true ->
  let names := filter (fun f => endswith f (String "." ext)) (map fst entries) in
  NoDup names
  /\ Forall (fun f => plain_name f = true /\ endswith f (String "." ext) = true) names.
Proof.
  intros H names. unfold plain_listing in H. apply andb_true_iff in H.
  destruct H as [Hnd Hplain]. split.
  - apply NoDup_filter, nodupb_NoDup, Hnd.
  - apply Forall_forall. intros f Hf. apply filter_In in Hf.
    destruct Hf as [Hin Hend]. split; [|exact Hend].
    rewrite forallb_forall in Hplain. exact (Hplain f Hin).
Qed.

Lemma flat_map_tagged_NoDup {A B T} (tag : A -> T) (tag_of : B -> T)
    (g : A -> list B) (l : list A) :
  NoDup (map tag l) ->
  (forall a, In a l -> NoDup (g a)) ->
  (forall a b, In b (g a) -> tag_of b = tag a) ->
  NoDup (flat_map g l).
Proof.
  intros Hnd Hblock Htag. induction l as [|a l IH]; simpl; [constructor|].
  inversion Hnd as [|? ? Ha Hl]; subst.
  apply NoDup_app.
  - apply Hblock. left. reflexivity.
  - apply IH; [exact Hl|]. intros a' Ha'. apply Hblock. right. exact Ha'.
  - intros b Hb Hb'. apply in_flat_map in Hb'. destruct Hb' as [a' [Ha' Hb']].
    apply Ha. rewrite <- (Htag a b Hb), (Htag a' b Hb').
    apply in_map. exact Ha'.
Qed.

Section FrameIdProperties.
Context {J : PyJson}.

Lemma process_media_file_frame_ids (dbp : string) (root : option (fsnode Content))
    (q f : string) :
  (forall entries,
      lookup (lookup root "keyframes") (fst (splitext f)) = Some (Dir entries) ->
      plain_listing entries = true) ->
  NoDup (map frame_id (process_media_file dbp root q f)).
Proof.
  intros Hkf. unfold process_media_file.
  destruct (lookup (lookup root "media-info") f) as [[content|]|]; try constructor.
  destruct (json_load content) as [d|]; try constructor.
  destruct (matches q d); try constructor.
  destruct (lookup (lookup root "keyframes") (fst (splitext f))) as [[c|entries]|];
    try constructor.
  simpl listdir. cbv iota. rewrite keyframe_records_frame_ids.
  destruct (plain_listing_names entries "jpg" (Hkf entries eq_refl)) as [Hnd Hall].
  apply (stems_NoDup "jpg"); [reflexivity| |].
  - apply firstn_NoDup. exact Hnd.
  - apply Forall_forall. intros g Hg. rewrite Forall_forall in Hall.
    apply Hall. eapply firstn_incl, Hg.
Qed.

(** How far frame ids do identify records.  The twenty mock records carry
    pairwise distinct frame ids.  In the dataset search the frame id is the
    keyframe file name without its extension: over listings of distinct
    plain names it is unique among the records one metadata file
    contributes, and the pair of video name and frame id is unique in the
    whole result. *)
Theorem frame_ids_unique_per_video
    (dbp : string) (root : option (fsnode Content)) (q : string)
    (mi_entries : list (string * fsnode Content)) :
  lookup root "media-info" = Some (Dir mi_entries) ->
  plain_listing mi_entries = true ->
  (forall v entries,
      lookup (lookup root "keyframes") v = Some (Dir entries) ->
      plain_listing entries = true) ->
  NoDup (map frame_id mock_results)
  /\ call_backend_text true dbp root q = Returned mock_results
  /\ (forall f, NoDup (map frame_id (process_media_file dbp root q f)))
  /\ exists results,
       search_database_text dbp root q = Returned results
       /\ NoDup (map record_key results).
Proof.
  intros Hmi Hplain Hkf.
  split; [apply nodupb_NoDup; vm_compute; reflexivity|].
  split; [reflexivity|].
  assert (Hblock : forall f, NoDup (map frame_id (process_media_file dbp root q f))).
  { intros f. apply process_media_file_frame_ids. intros entries. apply Hkf. }
  split; [exact Hblock|].
  eexists. split.
  { unfold search_database_text. rewrite Hmi. reflexivity. }
  destruct (plain_listing_names mi_entries "json" Hplain) as [Hnd Hall].
  rewrite flat_map_concat_map, concat_map, map_map, <- flat_map_concat_map.
  apply (flat_map_tagged_NoDup (fun f => Some (fst (splitext f))) fst).
  - rewrite <- (map_map (fun f => fst (splitext f)) Some).
    apply NoDup_map_NoDup_ForallPairs.
    + intros a b _ _ E. congruence.
    + apply (stems_NoDup "json"); [reflexivity|exact Hnd|exact Hall].
  - intros f _. apply NoDup_map_inv with (f := snd). rewrite map_map. apply Hblock.
  - intros f k Hk. apply in_map_iff in Hk. destruct Hk as [r [<- Hr]].
    pose proof (process_media_file_video dbp root q f) as Hv.
    rewrite Forall_forall in Hv. exact (Hv r Hr).
Qed.

End FrameIdProperties.

(** C7.  The dataset search does not keep frame ids unique within one
    result, although the mock path does and the selection is kept by frame
    id alone.  In a dataset where two videos match "cat" and both keyframe
    folders list [001.jpg] and [002.jpg], the result holds each frame id
    twice; ticking the one record [v1/001] then exports the record
    [v2/001] as well. *)
Theorem frame_id_shared_across_videos :
  exists results,
    search_database_text (J := json_documents) "db" two_video_store "cat"
    = Returned results
    /\ map frame_id results = ["001"; "002"; "001"; "002"]
    /\ map video_name results = [Some "v1"; Some "v1"; Some "v2"; Some "v2"]
    /\ ~ NoDup (map frame_id results)
    /\ NoDup (map frame_id (mock_results (J := json_documents)))
    /\ match results with
       | ticked :: _ =>
           let st := checkbox_command ticked true
                       (_update_results results initial_ui) in
           selected_images st = ["001"]
           /\ csv_rows KIS "" (selected_data st)
              = [["v1.mp4"; "001"]; ["v2.mp4"; "001"]]
       | [] => False
       end.
Proof.
  eexists. split; [reflexivity|]. split; [reflexivity|]. split; [reflexivity|].
  split; [|split; [|split; reflexivity]].
  - intros H. inversion H as [|? ? Hnot _]; subst.
    apply Hnot. right. left. reflexivity.
  - apply nodupb_NoDup. vm_compute. reflexivity.
Qed.

Lemma frame_ids_unique_per_video_witness :
  exists results,
    search_database_text (J := json_documents) "db" two_video_store "cat"
    = Returned results
    /\ NoDup (map record_key results).
Proof.
  refine (proj2 (proj2 (proj2
    (frame_ids_unique_per_video (J := json_documents) "db" two_video_store "cat"
       [ ("v1.json", File (Some (JDict [("title", JStr "cat video")])));
         ("v2.json", File (Some (JDict [("title", JStr "cat show")]))) ]
       eq_refl eq_refl _)))).
  intros v entries.
  change (lookup two_video_store "keyframes")
    with (Some (Dir [ ("v1", Dir [("001.jpg", image); ("002.jpg", image)]);
                      ("v2", Dir [("001.jpg", image); ("002.jpg", image)]) ])).
  cbn [lookup find_entry].
  destruct (String.eqb "v1" v); [intros E; injection E as <-; reflexivity|].
  destruct (String.eqb "v2" v); [intros E; injection E as <-; reflexivity|].
  discriminate.
Defined.

(** The match looks at keys as well as values, whatever the case. *)
Example match_covers_keys_and_values :
  matches (J := json_documents) "TITLE" (JDict [("title", JStr "cat video")]) = true
  /\ matches (J := json_documents) "Cat Vid" (JDict [("title", JStr "cat video")]) = true
  /\ matches (J := json_documents) "dog" (JDict [("title", JStr "cat video")]) = false
  /\ py_str (JDict [("title", JStr "cat video")]) = "{'title': 'cat video'}".
Proof. repeat split. Qed.

(** Two selected records of different videos, exported for KIS: two rows
    of video name and frame id. *)
Example kis_two_rows :
  csv_rows (J := json_documents) KIS ""
    (selected_data {| retrieved_images := mock_results;
                      selected_images := ["frame_0012"; "frame_0001"];
                      current_task := KIS;
                      answer_entry := "";
                      uploaded_txt_file := None |})
  = [["sample_video_1.mp4"; "frame_0001"]; ["sample_video_3.mp4"; "frame_0012"]].
Proof. reflexivity. Qed.

(* ================================================================== *)
(** * Further properties *)

(** ** Sorting *)

Lemma insert_sorted_perm (x : string) (l : list string) :
  Permutation (x :: l) (insert_sorted x l).
Proof.
  induction l as [|y t IH]; simpl; [apply Permutation_refl|].
  destruct (String.leb x y); [apply Permutation_refl|].
  eapply perm_trans; [apply perm_swap|]. apply perm_skip, IH.
Qed.

Lemma sort_strings_perm (l : list string) : Permutation l (sort_strings l).
Proof.
  induction l as [|x t IH]; simpl; [constructor|].
  eapply perm_trans; [apply perm_skip, IH|apply insert_sorted_perm].
Qed.

Lemma insert_sorted_head (y x : string) (t : list string) :
  HdRel (fun a b => String.leb a b = true) y t -> String.leb y x = true ->
  HdRel (fun a b => String.leb a b = true) y (insert_sorted x t).
Proof.
  intros Hy Hyx. destruct t as [|z t]; simpl; [constructor; exact Hyx|].
  destruct (String.leb x z); constructor; [exact Hyx|].
  inversion Hy; assumption.
Qed.

Lemma insert_sorted_ascending (x : string) (l : list string) :
  ascending l -> ascending (insert_sorted x l).
Proof.
  unfold ascending. induction l as [|y t IH]; intros Hl; simpl.
  - repeat constructor.
  - inversion Hl as [|? ? Ht Hy]; subst.
    destruct (String.leb x y) eqn:E.
    + constructor; [exact Hl|constructor; exact E].
    + constructor; [apply IH, Ht|].
      apply insert_sorted_head; [exact Hy|].
      destruct (String.leb_total x y) as [H|H]; [congruence|exact H].
Qed.

Lemma sort_strings_ascending (l : list string) : ascending (sort_strings l).
Proof.
  induction l as [|x t IH]; simpl; [constructor|].
  apply insert_sorted_ascending, IH.
Qed.

Lemma sort_strings_nil (l : list string) : sort_strings l = [] -> l = [].
Proof.
  intros H. apply Permutation_nil. rewrite <- H. apply Permutation_sym, sort_strings_perm.
Qed.

Lemma sort_strings_In (x : string) (l : list string) :
  In x (sort_strings l) <-> In x l.
Proof.
  split; apply Permutation_in;
    [apply Permutation_sym|]; apply sort_strings_perm.
Qed.

(** ** Lower case and endings *)

Lemma lower_app (a b : string) : lower (a ++ b) = (lower a ++ lower b)%string.
Proof.
  induction a as [|c a IH]; simpl; [reflexivity|]. rewrite IH. reflexivity.
Qed.

Lemma endswith_lower (f suf : string) :
  endswith f suf = true -> endswith (lower f) (lower suf) = true.
Proof.
  intros H. apply endswith_spec in H. destruct H as [pre ->].
  apply endswith_spec. exists (lower pre). apply lower_app.
Qed.

Lemma last_char_app (a b : string) :
  b <> "" -> last_char (a ++ b) = last_char b.
Proof.
  intros Hb. induction a as [|c a IH]; simpl; [reflexivity|].
  rewrite IH. destruct b as [|x b]; [congruence|].
  simpl. destruct (last_char b); reflexivity.
Qed.

Lemma endswith_last_char (s suf : string) :
  endswith s suf = true -> suf <> "" -> last_char s = last_char suf.
Proof.
  intros H Hne. apply endswith_spec in H. destruct H as [pre ->].
  apply last_char_app, Hne.
Qed.

(** Two endings with different last characters exclude each other. *)
Lemma endswith_exclusive (s a b : string) :
  endswith s a = true -> a <> "" -> b <> "" -> last_char a <> last_char b ->
  endswith s b = false.
Proof.
  intros Ha Hna Hnb Hdiff. destruct (endswith s b) eqn:Hb; [|reflexivity].
  exfalso. apply Hdiff.
  rewrite <- (endswith_last_char s a Ha Hna). apply endswith_last_char; assumption.
Qed.

(** ** Database browser *)

Lemma folder_items_incl {C} (folder ct : string) (node : fsnode C)
    (items : list string) (item : string) :
  In item (folder_items folder ct node items) -> In item items.
Proof.
  unfold folder_items.
  repeat match goal with
         | |- context [if ?b then _ else _] => destruct b
         end;
    try (intros H; apply filter_In in H; tauto); tauto.
Qed.

(** X1.  When the collection folder is a directory with at least one
    qualifying entry, its listbox shows exactly the qualifying entries, in
    ascending order, and nothing that is not an entry of the folder. *)
Theorem refresh_folder_list_sorted {C} (dbp : string) (root : option (fsnode C))
    (folder ct : string) (entries : list (string * fsnode C)) :
  lookup root folder = Some (Dir entries) ->
  folder_items folder ct (Dir entries) (map fst entries) <> [] ->
  let shown := refresh_folder_list dbp root folder ct in
  Permutation (folder_items folder ct (Dir entries) (map fst entries)) shown
  /\ ascending shown
  /\ (forall item, In item shown -> In item (map fst entries)).
Proof.
  intros Hdir Hne shown.
  assert (E : shown
              = sort_strings (folder_items folder ct (Dir entries) (map fst entries))).
  { unfold shown, refresh_folder_list. rewrite Hdir. simpl listdir. cbv iota.
    destruct (sort_strings _) eqn:Es; [|reflexivity].
    apply sort_strings_nil in Es. contradiction. }
  rewrite E. split; [apply sort_strings_perm|]. split; [apply sort_strings_ascending|].
  intros item H. apply (proj1 (sort_strings_In _ _)) in H.
  eapply folder_items_incl, H.
Qed.

Lemma refresh_folder_list_sorted_witness :
  refresh_folder_list "db" example_store "media-info" "file" = ["v1.json"]
  /\ ascending (refresh_folder_list "db" example_store "keyframes" "folder").
Proof.
  split; [reflexivity|].
  refine (proj1 (proj2 (refresh_folder_list_sorted "db" example_store "keyframes" "folder"
                          [("v1", Dir v1_keyframes)] eq_refl _))).
  discriminate.
Defined.

(** X2.  A refreshed listbox is never empty: a missing folder, a path that
    is not a directory and a folder without qualifying entries each leave
    exactly one explanatory line. *)
Theorem refresh_folder_list_never_empty {C} (dbp : string) (root : option (fsnode C))
    (folder ct : string) :
  refresh_folder_list dbp root folder ct <> []
  /\ (lookup root folder = None ->
      refresh_folder_list dbp root folder ct
      = [("Folder '" ++ folder ++ "' not found")%string])
  /\ (forall c, lookup root folder = Some (File c) ->
      refresh_folder_list dbp root folder ct
      = [("Error: [Errno 20] Not a directory: '" ++ path_join dbp folder ++ "'")%string])
  /\ (forall entries, lookup root folder = Some (Dir entries) ->
      folder_items folder ct (Dir entries) (map fst entries) = [] ->
      refresh_folder_list dbp root folder ct = ["No items found"]).
Proof.
  unfold refresh_folder_list. split; [|split; [|split]].
  - destruct (lookup root folder) as [[c|entries]|]; simpl; try discriminate.
    destruct (sort_strings _); discriminate.
  - intros ->. reflexivity.
  - intros c ->. reflexivity.
  - intros entries -> E. simpl. rewrite E. reflexivity.
Qed.

(** X3.  Whenever the listbox holds a message instead of items (folder
    missing, not a directory, or nothing qualifying), pressing Open on any
    of its lines does nothing. *)
Theorem message_lines_are_not_opened {C} (dbp : string) (root : option (fsnode C))
    (folder ct : string) (i : nat) :
  (forall entries, lookup root folder = Some (Dir entries) ->
                   folder_items folder ct (Dir entries) (map fst entries) = []) ->
  i < List.length (refresh_folder_list dbp root folder ct) ->
  open_database_item dbp folder (refresh_folder_list dbp root folder ct) (Some i) ct
  = NoAction.
Proof.
  intros Hnone.
  assert (E : exists line, refresh_folder_list dbp root folder ct = [line]
                           /\ reads_as_message line = true).
  { unfold refresh_folder_list.
    destruct (lookup root folder) as [[c|entries]|] eqn:El; simpl.
    - eexists. split; reflexivity.
    - rewrite (Hnone entries eq_refl). eexists. split; reflexivity.
    - eexists. split; reflexivity. }
  destruct E as [line [-> Hline]]. simpl. intros Hi.
  assert (i = 0) as -> by lia.
  unfold open_database_item. simpl nth. rewrite Hline. reflexivity.
Qed.

Lemma message_lines_are_not_opened_witness :
  open_database_item "db" "objects"
    (refresh_folder_list "db" example_store "objects" "folder") (Some 0) "folder"
  = NoAction.
Proof.
  apply (message_lines_are_not_opened "db" example_store "objects" "folder" 0).
  - intros entries H. discriminate H.
  - simpl. lia.
Defined.

Lemma viewer_of_ending (item ext : string) (v : viewer) :
  In (ext, v) [(".mp4", VideoInfo); (".npy", NumpyViewer);
               (".csv", CsvViewer); (".json", JsonViewer)] ->
  endswith (lower item) ext = true -> open_file_viewer item = v.
Proof.
  intros Hin He. unfold open_file_viewer.
  assert (Hx : forall b, b <> "" -> last_char ext <> last_char b ->
                         endswith (lower item) b = false).
  { intros b Hb Hd. apply (endswith_exclusive _ ext b He); [|exact Hb|exact Hd].
    simpl in Hin. intuition (inversion H; subst; discriminate). }
  simpl in Hin.
  destruct Hin as [H|[H|[H|[H|[]]]]]; inversion H; subst; clear H;
    repeat (rewrite (Hx _) by (simpl; discriminate)); rewrite ?He; reflexivity.
Qed.

(** X4.  In each of the four file collections, an entry the listbox lists
    carries the collection's extension (in any case) and, opened, goes to
    the viewer of that collection under the path
    [database/collection/entry] -- unless its name begins like one of the
    messages ("Error:", "No items", "Folder"), in which case Open silently
    does nothing. *)
Theorem listed_file_opens_in_its_viewer {C} (dbp : string) (root : option (fsnode C))
    (folder ext : string) (v : viewer) (entries : list (string * fsnode C))
    (item : string) :
  In (folder, (ext, v)) collection_viewers ->
  lookup root folder = Some (Dir entries) ->
  In item (folder_items folder "file" (Dir entries) (map fst entries)) ->
  let listbox := refresh_folder_list dbp root folder "file" in
  In item listbox
  /\ endswith (lower item) ext = true
  /\ open_file_viewer item = v
  /\ (forall i, nth i listbox "" = item ->
        open_database_item dbp folder listbox (Some i) "file"
        = if reads_as_message item then NoAction
          else FileViewer (path_join (path_join dbp folder) item) item folder v).
Proof.
  intros Hcoll Hdir Hitem listbox.
  assert (Hne : folder_items folder "file" (Dir entries) (map fst entries) <> []).
  { intros E. rewrite E in Hitem. exact Hitem. }
  assert (Hshown : In item listbox).
  { unfold listbox, refresh_folder_list. rewrite Hdir. simpl listdir. cbv iota.
    destruct (sort_strings _) eqn:Es.
    - apply sort_strings_nil in Es. contradiction.
    - rewrite <- Es. apply sort_strings_In, Hitem. }
  assert (Hend : endswith (lower item) ext = true).
  { simpl in Hcoll.
    destruct Hcoll as [H|[H|[H|[H|[]]]]]; inversion H; subst; clear H;
      unfold folder_items in Hitem; simpl in Hitem;
      apply filter_In in Hitem; tauto. }
  assert (Hview : open_file_viewer item = v).
  { apply (viewer_of_ending item ext v); [|exact Hend].
    simpl in Hcoll. simpl.
    destruct Hcoll as [H|[H|[H|[H|[]]]]]; inversion H; subst; tauto. }
  split; [exact Hshown|]. split; [exact Hend|]. split; [exact Hview|].
  intros i Hi. unfold open_database_item. rewrite Hi.
  destruct (reads_as_message item); [reflexivity|].
  simpl String.eqb. cbv iota. rewrite Hview. reflexivity.
Qed.

Lemma listed_file_opens_in_its_viewer_witness :
  open_database_item "db" "media-info"
    (refresh_folder_list "db" example_store "media-info" "file") (Some 0) "file"
  = FileViewer "db/media-info/v1.json" "v1.json" "media-info" JsonViewer.
Proof.
  exact (proj2 (proj2 (proj2
    (listed_file_opens_in_its_viewer "db" example_store "media-info" ".json" JsonViewer
       [("v1.json", File (Some (JDict [("title", JStr "cat video")])))] "v1.json"
       (or_intror (or_intror (or_intror (or_introl eq_refl))))
       eq_refl (or_introl eq_refl)))) 0 eq_refl).
Defined.

(** X5.  The folder browser lists every entry of the folder, each once, in
    ascending order; a path that leads nowhere or to a file gives a single
    error line.  A keyframe name the search accepts (ending in [.jpg]) opens
    in the image viewer. *)
Theorem open_folder_browser_lists_all {C} (folder_path : string)
    (node : option (fsnode C)) :
  (forall entries, node = Some (Dir entries) ->
     Permutation (map fst entries) (open_folder_browser folder_path node)
     /\ ascending (open_folder_browser folder_path node))
  /\ ((forall entries, node <> Some (Dir entries)) ->
      exists message,
        open_folder_browser folder_path node
        = [("Error loading folder: " ++ message)%string])
  /\ (forall f, endswith f ".jpg" = true -> open_file_viewer f = ImageViewer).
Proof.
  split; [|split].
  - intros entries ->. simpl. split; [apply sort_strings_perm|apply sort_strings_ascending].
  - intros H. destruct node as [[c|entries]|]; simpl.
    + eexists. reflexivity.
    + exfalso. exact (H entries eq_refl).
    + eexists. reflexivity.
  - intros f H. unfold open_file_viewer.
    pose proof (endswith_lower f ".jpg" H) as Hl.
    change (lower ".jpg") with ".jpg" in Hl. rewrite Hl. reflexivity.
Qed.

(** ** Browser and search side by side *)

Section BrowserAndSearch.
Context {J : PyJson}.

(** X6.  Every metadata file the search reads is a line of the media-info
    listbox, and every record of a search comes from a listed file whose
    name ends in lower-case [.json]: the browser accepts the extension in
    any case, the search only in lower case. *)
Theorem search_reads_listed_files (dbp : string) (root : option (fsnode Content))
    (q : string) (entries : list (string * fsnode Content)) :
  lookup root "media-info" = Some (Dir entries) ->
  let listbox := refresh_folder_list dbp root "media-info" "file" in
  (forall f, In f (filter (fun f => endswith f ".json") (map fst entries)) ->
             In f listbox)
  /\ exists results,
       search_database_text dbp root q = Returned results
       /\ forall r, In r results ->
            exists f, In f listbox /\ endswith f ".json" = true
                      /\ video_name r = Some (fst (splitext f)).
Proof.
  intros Hdir listbox.
  assert (Hlisted : forall f,
             In f (filter (fun f => endswith f ".json") (map fst entries)) ->
             In f listbox).
  { intros f Hf. apply filter_In in Hf. destruct Hf as [Hin Hend].
    assert (Hitem : In f (folder_items "media-info" "file" (Dir entries) (map fst entries))).
    { unfold folder_items. simpl. apply filter_In. split; [exact Hin|].
      exact (endswith_lower f ".json" Hend). }
    unfold listbox, refresh_folder_list. rewrite Hdir. simpl listdir. cbv iota.
    destruct (sort_strings _) eqn:Es.
    - apply sort_strings_nil in Es. rewrite Es in Hitem. destruct Hitem.
    - rewrite <- Es. apply sort_strings_In, Hitem. }
  split; [exact Hlisted|].
  eexists. split.
  { unfold search_database_text. rewrite Hdir. reflexivity. }
  intros r Hr. apply in_flat_map in Hr. destruct Hr as [f [Hf Hr]].
  exists f. split; [apply Hlisted, Hf|]. split.
  - apply filter_In in Hf. tauto.
  - pose proof (process_media_file_video dbp root q f) as Hv.
    rewrite Forall_forall in Hv. exact (Hv r Hr).
Qed.

End BrowserAndSearch.

Lemma search_reads_listed_files_witness :
  refresh_folder_list "db" upper_case_store "media-info" "file" = ["V1.JSON"]
  /\ search_database_text (J := json_documents) "db" upper_case_store "cat"
     = Returned []
  /\ In "v1.json" (refresh_folder_list "db" example_store "media-info" "file").
Proof.
  split; [reflexivity|]. split; [reflexivity|].
  apply (proj1 (search_reads_listed_files (J := json_documents)
                  "db" example_store "cat"
                  [("v1.json", File (Some (JDict [("title", JStr "cat video")])))]
                  eq_refl)).
  left. reflexivity.
Defined.

(** ** Query input *)

Lemma py_in_empty (s : string) : py_in "" s = true.
Proof. destruct s; reflexivity. Qed.

Lemma rfind_app_char (c : ascii) (a b : string) :
  rfind c b = None -> rfind c (a ++ String c b) = Some (String.length a).
Proof.
  intros Hb. induction a as [|x a IH]; simpl.
  - rewrite Hb, Ascii.eqb_refl. reflexivity.
  - rewrite IH. reflexivity.
Qed.

Lemma substring_all (s : string) : substring 0 (String.length s) s = s.
Proof.
  induction s as [|c s IH]; simpl; [reflexivity|]. rewrite IH. reflexivity.
Qed.

Lemma basename_join (dir name : string) :
  rfind "/" name = None -> basename (dir ++ String "/" name) = name.
Proof.
  intros H. unfold basename. rewrite (rfind_app_char _ _ _ H).
  induction dir as [|c dir IH]; simpl.
  - rewrite Nat.sub_0_r. apply substring_all.
  - exact IH.
Qed.

Section QueryInput.
Context {J : PyJson}.

Lemma search_raises_exception (dbp : string) (root : option (fsnode Content))
    (q : string) (e : py_error) :
  search_database_text dbp root q = Raised e -> exists m, e = PyException m.
Proof.
  unfold search_database_text.
  destruct (lookup root "media-info") as [[c|entries]|]; simpl;
    intros H; inversion H; eexists; reflexivity.
Qed.

Lemma dispatch_raises_exception (m : bool) (dbp : string)
    (root : option (fsnode Content)) (q : query_data) (e : py_error) :
  (q_text q <> None \/ q_image_path q <> None \/ q_txt_file q <> None) ->
  dispatch_search m dbp root q = Raised e -> exists msg, e = PyException msg.
Proof.
  intros Hsome. unfold dispatch_search.
  destruct (q_txt_file q) as [read|].
  - unfold call_backend_txt_file. destruct read as [text|e0].
    + destruct (if negb m then _ else _); intros H; inversion H. eexists. reflexivity.
    + intros H. inversion H. eexists. reflexivity.
  - destruct (q_text q) as [text|], (q_image_path q) as [image|].
    + unfold call_backend_multimodal, call_backend_text, search_database_multimodal.
      destruct m; simpl; [discriminate|apply search_raises_exception].
    + unfold call_backend_text.
      destruct m; simpl; [discriminate|apply search_raises_exception].
    + unfold call_backend_image, call_backend_text, search_database_image.
      destruct m; simpl; [discriminate|apply search_raises_exception].
    + intros _. exfalso. destruct Hsome as [H|[H|H]]; apply H; reflexivity.
Qed.

(** X7.  [process_search] refuses with a warning exactly when the query box
    is blank (empty or whitespace only), no image is chosen and no TXT file
    is uploaded.  Otherwise the query it hands over carries the stripped,
    non-empty text if there is one, and never makes the dispatcher raise
    its "No valid input provided" error. *)
Theorem process_search_needs_input (box : string) (image : option string)
    (read : outcome string) (st : ui) :
  ((exists w, process_search box image read st = inl w)
   <-> strip (text_entry_get box) = "" /\ image = None /\ uploaded_txt_file st = None)
  /\ (forallb is_space (list_ascii_of_string box) = true ->
      strip (text_entry_get box) = "")
  /\ (forall q, process_search box image read st = inr q ->
        (forall t, q_text q = Some t -> t <> "" /\ t = strip (text_entry_get box))
        /\ q_image_path q = image
        /\ forall m dbp root,
             dispatch_search m dbp root q <> Raised (ValueError "No valid input provided")).
Proof.
  split; [|split].
  - unfold process_search.
    destruct (String.eqb_spec (strip (text_entry_get box)) "") as [Eb|Eb];
      destruct image as [img|]; destruct (uploaded_txt_file st) as [b|]; simpl;
      split;
      try (intros [w H]; discriminate H);
      try (intros (H1 & H2 & H3); congruence).
    + intros _. repeat split. exact Eb.
    + intros _. eexists. reflexivity.
  - intros Hblank. unfold text_entry_get. apply strip_blank.
    rewrite list_ascii_of_string_app, forallb_app, Hblank. reflexivity.
  - intros q Hq. unfold process_search in Hq.
    destruct (negb (negb (String.eqb (strip (text_entry_get box)) "")) && _ && _) eqn:Ew;
      [discriminate Hq|].
    inversion Hq; subst q; clear Hq. simpl.
    split; [|split; [reflexivity|]].
    + intros t Ht.
      destruct (String.eqb_spec (strip (text_entry_get box)) "") as [Eb|Eb];
        simpl in Ht; inversion Ht; subst. split; [exact Eb|reflexivity].
    + intros m dbp root Hraise.
      apply dispatch_raises_exception in Hraise.
      * destruct Hraise as [msg Hmsg]. discriminate Hmsg.
      * simpl.
        destruct (String.eqb (strip (text_entry_get box)) ""); simpl in *;
          [|left; discriminate].
        destruct image as [img|]; [right; left; discriminate|].
        destruct (uploaded_txt_file st); [right; right; discriminate|].
        discriminate Ew.
Qed.

(** X8.  Once a TXT file is uploaded the search runs on that file alone:
    whatever the query box holds and whichever image is chosen, the query
    is dispatched to [call_backend_txt_file] on the content read from the
    file. *)
Theorem uploaded_txt_file_decides_search (box : string) (image : option string)
    (read : outcome string) (st : ui) (m : bool) (dbp : string)
    (root : option (fsnode Content)) :
  uploaded_txt_file st <> None ->
  exists q,
    process_search box image read st = inr q
    /\ dispatch_search m dbp root q = call_backend_txt_file m dbp root read.
Proof.
  intros Hup. unfold process_search.
  destruct (uploaded_txt_file st) as [b|]; [|congruence].
  rewrite andb_false_r. eexists. split; reflexivity.
Qed.

(** X9.  The chosen image is never looked at: replacing it by any other
    image leaves the outcome of the search unchanged, and in dataset mode
    an image alone is searched as the text "image_search". *)
Theorem image_is_never_consulted (m : bool) (dbp : string)
    (root : option (fsnode Content)) (text : option string)
    (txt : option (outcome string)) (image image' : string) :
  dispatch_search m dbp root
    {| q_text := text; q_image_path := Some image; q_txt_file := txt |}
  = dispatch_search m dbp root
      {| q_text := text; q_image_path := Some image'; q_txt_file := txt |}
  /\ dispatch_search false dbp root
       {| q_text := None; q_image_path := Some image; q_txt_file := None |}
     = search_database_text dbp root "image_search"
  /\ (forall t, dispatch_search false dbp root
                  {| q_text := Some t; q_image_path := Some image; q_txt_file := None |}
                = search_database_text dbp root t).
Proof.
  split; [|split; [reflexivity|intros t; reflexivity]].
  unfold dispatch_search. simpl.
  destruct txt as [read|]; [reflexivity|].
  destruct text as [t|]; destruct m; reflexivity.
Qed.

(** X10.  An uploaded TXT file that is empty or holds only whitespace is
    searched as the empty query, which matches every document: in dataset
    mode it returns what the search for the empty text returns. *)
Theorem blank_txt_file_matches_everything (dbp : string)
    (root : option (fsnode Content)) (text : string) :
  forallb is_space (list_ascii_of_string text) = true ->
  (forall doc, matches (strip text) doc = true)
  /\ (forall results,
        search_database_text dbp root "" = Returned results ->
        call_backend_txt_file false dbp root (Returned text) = Returned results)
  /\ (forall f content doc,
        lookup (lookup root "media-info") f = Some (File content) ->
        json_load content = Some doc ->
        process_media_file dbp root (strip text) f
        = match lookup (lookup root "keyframes") (fst (splitext f)) with
          | Some (Dir kf) =>
              keyframe_records doc (fst (splitext f))
                (path_join (path_join dbp "keyframes") (fst (splitext f))) 0
                (firstn 10 (jpg_files (map fst kf)))
          | _ => []
          end).
Proof.
  intros Hblank. rewrite (strip_blank text Hblank).
  assert (Hall : forall doc, matches "" doc = true).
  { intros doc. unfold matches. apply py_in_empty. }
  split; [exact Hall|]. split.
  - intros results Hs. unfold call_backend_txt_file. simpl.
    rewrite (strip_blank text Hblank), Hs. reflexivity.
  - intros f content doc Hf Hload. unfold process_media_file.
    rewrite Hf, Hload. cbv zeta. rewrite Hall.
    destruct (lookup (lookup root "keyframes") (fst (splitext f))) as [[c|kf]|];
      reflexivity.
Qed.

(** X11.  In mock mode the dataset and the query play no part: every query
    with a text or an image, or with a TXT file that can be read, delivers
    the twenty mock records, and the search thread reports them and empties
    the selection. *)
Theorem mock_mode_ignores_query_and_store (dbp : string)
    (root : option (fsnode Content)) (q : query_data) (st : ui) :
  (exists text, q_txt_file q = Some (Returned text))
  \/ (q_txt_file q = None /\ (q_text q <> None \/ q_image_path q <> None)) ->
  dispatch_search true dbp root q = Returned mock_results
  /\ _run_search true dbp root q st
     = (_update_results mock_results st, Some "Retrieved 20 frames")
  /\ selected_images (fst (_run_search true dbp root q st)) = [].
Proof.
  intros H.
  assert (Hd : dispatch_search true dbp root q = Returned mock_results).
  { unfold dispatch_search. destruct H as [[text Ht]|[Ht Hin]]; rewrite Ht.
    - reflexivity.
    - destruct (q_text q) as [t|], (q_image_path q) as [i|]; try reflexivity.
      exfalso. destruct Hin as [Hin|Hin]; apply Hin; reflexivity. }
  split; [exact Hd|]. unfold _run_search. rewrite Hd. split; reflexivity.
Qed.

End QueryInput.

(** ** Where an export lands *)

Lemma string_app_assoc (a b c : string) :
  ((a ++ b) ++ c)%string = (a ++ (b ++ c))%string.
Proof.
  induction a as [|x a IH]; simpl; [reflexivity|]. rewrite IH. reflexivity.
Qed.

Lemma last_char_path_join (a b : string) :
  b <> "" -> last_char (path_join a b) = last_char b.
Proof.
  intros Hb. unfold path_join.
  destruct (startswith b "/"); [reflexivity|].
  destruct (String.eqb a "" || endswith a "/").
  - apply last_char_app, Hb.
  - rewrite last_char_app by discriminate.
    exact (last_char_app "/" b Hb).
Qed.

Lemma path_join_plain (a b : string) (c : ascii) :
  last_char a = Some c -> c <> "/"%char -> startswith b "/" = false ->
  path_join a b = (a ++ "/" ++ b)%string.
Proof.
  intros Hl Hc Hb. unfold path_join. rewrite Hb.
  destruct (String.eqb_spec a "") as [->|_]; [discriminate Hl|].
  destruct (endswith a "/") eqn:E; [|reflexivity].
  apply endswith_last_char in E; [|discriminate].
  rewrite Hl in E. inversion E. contradiction.
Qed.

Lemma startswith_app_char (a b : string) (c : ascii) :
  startswith a "/" = false -> c <> "/"%char ->
  startswith (a ++ String c b) "/" = false.
Proof.
  intros Ha Hc. destruct a as [|x a]; simpl in *.
  - destruct (Ascii.eqb_spec c "/"); [contradiction|reflexivity].
  - exact Ha.
Qed.

Lemma rfind_none_startswith (s : string) :
  rfind "/" s = None -> startswith s "/" = false.
Proof.
  destruct s as [|x s]; simpl; [reflexivity|].
  destruct (rfind "/" s); [discriminate|].
  destruct (Ascii.eqb x "/"); [discriminate|reflexivity].
Qed.


Section ExportLayout.
Context {J : PyJson}.

Lemma export_name_last (timestamp : string) (t : task) :
  exists c, last_char (export_name timestamp t) = Some c /\ c <> "/"%char.
Proof.
  unfold export_name.
  rewrite last_char_app by discriminate.
  rewrite (last_char_app "-") by (destruct t; discriminate).
  destruct t; eexists; (split; [reflexivity|discriminate]).
Qed.

Lemma create_csv_file_path (base_dir timestamp : string) (st : ui) (d : disk)
    (filename : string) :
  startswith timestamp "/" = false ->
  startswith filename "/" = false ->
  filename = match uploaded_txt_file st with
             | Some base_name => (base_name ++ ".csv")%string
             | None => (export_name timestamp (current_task st) ++ ".csv")%string
             end ->
  path_join (path_join base_dir "output_csv") (export_name timestamp (current_task st))
  = (path_join base_dir "output_csv" ++ "/" ++ export_name timestamp (current_task st))%string
  /\ fst (create_csv_file base_dir timestamp st d)
     = (path_join base_dir "output_csv" ++ "/"
        ++ export_name timestamp (current_task st) ++ "/" ++ filename)%string.
Proof.
  intros Hts Hfile Hname.
  assert (Hdir : path_join (path_join base_dir "output_csv")
                           (export_name timestamp (current_task st))
                 = (path_join base_dir "output_csv" ++ "/"
                    ++ export_name timestamp (current_task st))%string).
  { apply (path_join_plain _ _ "v").
    - rewrite last_char_path_join by discriminate. reflexivity.
    - discriminate.
    - apply startswith_app_char; [exact Hts|discriminate]. }
  split; [exact Hdir|].
  assert (Hpath : fst (create_csv_file base_dir timestamp st d)
                  = path_join (path_join (path_join base_dir "output_csv")
                                         (export_name timestamp (current_task st)))
                              filename).
  { rewrite Hname. unfold create_csv_file, export_name. simpl fst.
    destruct (uploaded_txt_file st); [reflexivity|].
    rewrite !string_app_assoc. reflexivity. }
  rewrite Hpath, Hdir.
  destruct (export_name_last timestamp (current_task st)) as [c [Hc Hne]].
  rewrite (path_join_plain _ filename c); [| |exact Hne|exact Hfile].
  - rewrite !string_app_assoc. reflexivity.
  - rewrite !last_char_app; [exact Hc| |discriminate].
    unfold export_name. destruct timestamp; discriminate.
Qed.

End ExportLayout.

Section ExportPaths.
Context {J : PyJson}.


(** X13.  Uploading the TXT file [<dir>/<stem>.txt] puts the stripped
    content of the file in the query box, selects the task by the file
    name alone, and names the next export [<stem>.csv]; the result set and
    the selection stay as they were. *)
Theorem upload_names_the_export (dir stem text box base_dir timestamp : string)
    (st : ui) (d : disk) :
  rfind "/" stem = None ->
  existsb (fun a => negb (Ascii.eqb a ".")) (list_ascii_of_string stem) = true ->
  startswith timestamp "/" = false ->
  let after := upload_txt_file (dir ++ "/" ++ stem ++ ".txt")%string
                               (Returned text) st box in
  let st' := snd (fst after) in
  fst (fst after) = None
  /\ snd after = strip text
  /\ uploaded_txt_file st' = Some stem
  /\ current_task st' = detect_task (stem ++ ".txt")%string (current_task st)
  /\ retrieved_images st' = retrieved_images st
  /\ selected_images st' = selected_images st
  /\ fst (create_csv_file base_dir timestamp st' d)
     = (path_join base_dir "output_csv" ++ "/"
        ++ export_name timestamp (current_task st') ++ "/" ++ stem ++ ".csv")%string.
Proof.
  intros Hsep Hdot Hts after st'.
  assert (Hbase : basename (dir ++ "/" ++ stem ++ ".txt")%string = (stem ++ ".txt")%string).
  { apply (basename_join dir (stem ++ ".txt")).
    apply rfind_app_none; [exact Hsep|reflexivity]. }
  assert (Hext : splitext (stem ++ ".txt")%string = (stem, ".txt")).
  { apply (splitext_plain stem "txt"); [exact Hsep|reflexivity|reflexivity|exact Hdot]. }
  assert (Hafter : after
                   = (None,
                      {| retrieved_images := retrieved_images st;
                         selected_images := selected_images st;
                         current_task := detect_task (stem ++ ".txt")%string (current_task st);
                         answer_entry := answer_entry st;
                         uploaded_txt_file := Some stem |},
                      strip text)).
  { unfold after, upload_txt_file.
    destruct (String.eqb_spec (dir ++ "/" ++ stem ++ ".txt")%string "") as [E|_].
    - destruct dir; discriminate E.
    - rewrite Hbase, Hext. reflexivity. }
  assert (Hstart : startswith (stem ++ ".csv") "/" = false).
  { apply startswith_app_char; [apply rfind_none_startswith, Hsep|discriminate]. }
  unfold st'. rewrite Hafter. cbn [fst snd].
  repeat (split; [reflexivity|]).
  exact (proj2 (create_csv_file_path base_dir timestamp
                  {| retrieved_images := retrieved_images st;
                     selected_images := selected_images st;
                     current_task := detect_task (stem ++ ".txt")%string (current_task st);
                     answer_entry := answer_entry st;
                     uploaded_txt_file := Some stem |}
                  d (stem ++ ".csv") Hts Hstart eq_refl)).
Qed.

End ExportPaths.


Lemma upload_names_the_export_witness :
  fst (create_csv_file "/app" "20250101_120000"
         (snd (fst (upload_txt_file "/data/query-1-qa.txt" (Returned " who? ")
                                    mock_ui "")))
         {| directories := []; files := [] |})
  = "/app/output_csv/20250101_120000-qna/query-1-qa.csv".
Proof.
  exact (proj2 (proj2 (proj2 (proj2 (proj2 (proj2
    (upload_names_the_export "/data" "query-1-qa" " who? " "" "/app" "20250101_120000"
       mock_ui {| directories := []; files := [] |} eq_refl eq_refl eq_refl))))))).
Defined.

(** ** Selecting and unselecting *)

Lemma remove_first_snoc (x : string) (l : list string) :
  ~ In x l -> remove_first x (l ++ [x]) = l.
Proof.
  induction l as [|y l IH]; intros H; simpl.
  - rewrite String.eqb_refl. reflexivity.
  - destruct (String.eqb_spec y x) as [E|_].
    + exfalso. apply H. left. exact E.
    + rewrite IH; [reflexivity|]. intros Hin. apply H. right. exact Hin.
Qed.

Lemma remove_first_NoDup (x : string) (l : list string) :
  NoDup l ->
  NoDup (remove_first x l)
  /\ forall g, In g (remove_first x l) <-> In g l /\ g <> x.
Proof.
  induction 1 as [|y l Hy Hl IH]; simpl.
  - split; [constructor|]. intros g. tauto.
  - destruct (String.eqb_spec y x) as [->|Hne].
    + split; [exact Hl|]. intros g. split.
      * intros Hg. split; [right; exact Hg|]. intros ->. contradiction.
      * intros [[E|Hg] Hgx]; [congruence|exact Hg].
    + destruct IH as [IHn IHi]. split.
      * constructor; [|exact IHn]. intros Hin. apply IHi in Hin. tauto.
      * intros g. simpl. rewrite IHi. split.
        -- intros [E|[Hg Hgx]]; [subst; tauto|tauto].
        -- intros [[E|Hg] Hgx]; [left; exact E|right; tauto].
Qed.

Section SelectionProperties.
Context {J : PyJson}.

(** X14.  Switching an unselected frame on and then off again restores the
    state exactly.  When the frame was already selected, switching it on
    changes nothing, so the following switch-off removes it: the pair does
    not restore the selection then. *)
Theorem toggle_on_off_round_trip (st : ui) (fid : string) :
  (~ In fid (selected_images st) ->
   toggle_selection fid false (toggle_selection fid true st) = st)
  /\ (In fid (selected_images st) ->
      toggle_selection fid true st = st
      /\ selected_images (toggle_selection fid false (toggle_selection fid true st))
         = remove_first fid (selected_images st)).
Proof.
  destruct st as [records selected t answer upload]. simpl. split.
  - intros Hnot. unfold toggle_selection. simpl.
    rewrite (mem_false fid selected Hnot). simpl.
    assert (Hm : mem fid (selected ++ [fid]) = true).
    { apply mem_In, in_or_app. right. left. reflexivity. }
    rewrite Hm. unfold with_results. simpl.
    rewrite (remove_first_snoc fid selected Hnot). reflexivity.
  - intros Hin. apply mem_In in Hin.
    assert (E : toggle_selection fid true
                  {| retrieved_images := records; selected_images := selected;
                     current_task := t; answer_entry := answer;
                     uploaded_txt_file := upload |}
                = {| retrieved_images := records; selected_images := selected;
                     current_task := t; answer_entry := answer;
                     uploaded_txt_file := upload |}).
    { unfold toggle_selection. simpl. rewrite Hin. reflexivity. }
    split; [exact E|]. rewrite E.
    unfold toggle_selection. simpl. rewrite Hin. reflexivity.
Qed.

(** X15.  On a selection without repeated ids, a toggle leaves the
    selection without repeats, makes the toggled id selected exactly when
    the flag is on, changes the status of no other id and leaves the
    records alone. *)
Theorem toggle_selection_effect (st : ui) (fid : string) (on : bool) :
  NoDup (selected_images st) ->
  let st' := toggle_selection fid on st in
  NoDup (selected_images st')
  /\ (In fid (selected_images st') <-> on = true)
  /\ (forall g, g <> fid ->
        (In g (selected_images st') <-> In g (selected_images st)))
  /\ retrieved_images st' = retrieved_images st.
Proof.
  intros Hnd st'. unfold st', toggle_selection.
  destruct on; simpl.
  - destruct (mem fid (selected_images st)) eqn:E; simpl.
    + apply mem_In in E. repeat split; tauto.
    + assert (Hnot : ~ In fid (selected_images st)).
      { intros H. apply mem_In in H. congruence. }
      split; [|split; [|split; [|reflexivity]]].
      * apply NoDup_app; [exact Hnd|repeat constructor; intros []|].
        intros a Ha [<-|[]]. contradiction.
      * split; [reflexivity|]. intros _. apply in_or_app. right. left. reflexivity.
      * intros g Hg. rewrite in_app_iff. simpl. intuition congruence.
  - destruct (mem fid (selected_images st)) eqn:E; simpl.
    + destruct (remove_first_NoDup fid (selected_images st) Hnd) as [Hn Hi].
      split; [exact Hn|]. split; [|split; [|reflexivity]].
      * rewrite Hi. split; [tauto|discriminate].
      * intros g Hg. rewrite Hi. tauto.
    + assert (Hnot : ~ In fid (selected_images st)).
      { intros H. apply mem_In in H. congruence. }
      split; [exact Hnd|]. split; [|split; [|reflexivity]].
      * split; [contradiction|discriminate].
      * tauto.
Qed.

(** X16.  After select-all the export covers the whole result set: the
    selected records are all the records, and a KIS export writes one row
    per record, in the order of the records. *)
Theorem select_all_exports_every_record (st : ui) (answer : string) :
  selected_data (select_all st) = retrieved_images st
  /\ csv_rows KIS answer (selected_data (select_all st))
     = map (fun r => [export_video_name r; frame_id r]) (retrieved_images st)
  /\ List.length (csv_rows KIS answer (selected_data (select_all st)))
     = List.length (retrieved_images st).
Proof.
  assert (E : selected_data (select_all st) = retrieved_images st).
  { unfold selected_data, select_all. simpl. apply filter_all.
    apply Forall_forall. intros r Hr. apply mem_In, in_map, Hr. }
  rewrite E. split; [reflexivity|]. split; [reflexivity|apply length_map].
Qed.

(** X17.  The selection is kept by frame id alone: ticking the checkbox
    of one record selects, and exports, every record of the result set
    that carries the same frame id. *)
Theorem shared_frame_id_selected_together (st : ui) (r r' : result) :
  In r (retrieved_images st) ->
  In r' (retrieved_images st) ->
  frame_id r' = frame_id r ->
  let st' := checkbox_command r true st in
  In r (selected_data st') /\ In r' (selected_data st')
  /\ forall answer,
       In [export_video_name r'; frame_id r'] (csv_rows KIS answer (selected_data st')).
Proof.
  intros Hr Hr' Hid st'.
  assert (Hsel : In (frame_id r) (selected_images st')).
  { unfold st', checkbox_command, toggle_selection. simpl.
    destruct (mem (frame_id r) (selected_images st)) eqn:E; simpl.
    - apply mem_In, E.
    - apply in_or_app. right. left. reflexivity. }
  assert (Hrec : retrieved_images st' = retrieved_images st).
  { unfold st', checkbox_command, toggle_selection. simpl.
    destruct (mem (frame_id r) (selected_images st)); reflexivity. }
  assert (Hboth : In r (selected_data st') /\ In r' (selected_data st')).
  { unfold selected_data. rewrite Hrec. split; apply filter_In; split;
      try assumption; apply mem_In; [|rewrite Hid]; exact Hsel. }
  split; [tauto|]. split; [tauto|]. intros answer.
  exact (in_map (fun x => [export_video_name x; frame_id x]) _ _ (proj2 Hboth)).
Qed.

End SelectionProperties.

(** ** Shape of the exported rows *)

Section ExportShape.
Context {J : PyJson}.

(** X18.  Every export is rectangular: all rows of a KIS file have two
    fields, all rows of a QnA file three, the third being the answer, and
    all rows of a TRAKE file one field more than the largest group. *)
Theorem csv_rows_rectangular (t : task) (answer : string) (data : list result) :
  Forall (fun r => List.length r
                   = match t with
                     | KIS => 2
                     | QnA => 3
                     | TRAKE => 1 + max_frames (group_by_video data)
                     end)
         (csv_rows t answer data)
  /\ Forall (fun r => nth 2 r answer = answer) (csv_rows QnA answer data).
Proof.
  split.
  - destruct t; unfold csv_rows.
    + apply Forall_forall. intros r Hr. apply in_map_iff in Hr.
      destruct Hr as [x [<- _]]. reflexivity.
    + apply Forall_forall. intros r Hr. apply in_map_iff in Hr.
      destruct Hr as [x [<- _]]. reflexivity.
    + destruct data as [|x data]; [constructor|].
      apply Forall_forall. intros r Hr. apply in_map_iff in Hr.
      destruct Hr as [kv [<- Hkv]].
      assert (Hle : List.length (snd kv) <= max_frames (group_by_video (x :: data))).
      { unfold max_frames. apply list_max_bound.
        exact (in_map (fun kv => List.length (snd kv)) _ _ Hkv). }
      simpl. rewrite length_app, repeat_length. lia.
  - apply Forall_forall. intros r Hr. unfold csv_rows in Hr.
    apply in_map_iff in Hr. destruct Hr as [x [<- _]]. reflexivity.
Qed.

Lemma add_frame_frames (videos : list (string * list string)) (v fid : string) :
  Permutation (flat_map snd (add_frame videos v fid)) (flat_map snd videos ++ [fid]).
Proof.
  induction videos as [|[k frames] rest IH]; simpl; [apply Permutation_refl|].
  destruct (String.eqb k v); simpl.
  - rewrite <- !app_assoc. apply Permutation_app_head, Permutation_app_comm.
  - rewrite <- app_assoc. apply Permutation_app_head, IH.
Qed.

Lemma add_frame_keys (videos : list (string * list string)) (v fid : string) :
  Forall (fun kv => snd kv <> []) videos ->
  Forall (fun kv => snd kv <> []) (add_frame videos v fid).
Proof.
  induction videos as [|[k frames] rest IH]; intros H; simpl.
  - repeat constructor. discriminate.
  - inversion H as [|? ? Hk Hrest]; subst.
    destruct (String.eqb k v); constructor.
    + simpl. intros E. apply app_eq_nil in E. destruct E as [_ E]. discriminate E.
    + exact Hrest.
    + exact Hk.
    + apply IH, Hrest.
Qed.

Lemma group_by_video_nonempty (data : list result) :
  Forall (fun kv => snd kv <> []) (group_by_video data).
Proof.
  unfold group_by_video. induction data as [|x data IH] using rev_ind;
    [constructor|].
  rewrite fold_left_app. simpl. apply add_frame_keys, IH.
Qed.

(** X19.  Grouping for TRAKE neither drops nor repeats a frame: the frame
    ids of all groups together are the frame ids of the selected records,
    and no group is empty, so every row starts with a video name followed
    by at least one frame id. *)
Theorem trake_groups_keep_every_frame (data : list result) :
  Permutation (flat_map snd (group_by_video data)) (map frame_id data)
  /\ Forall (fun kv => snd kv <> []) (group_by_video data)
  /\ list_sum (map (fun kv => List.length (snd kv)) (group_by_video data))
     = List.length data.
Proof.
  assert (Hperm : Permutation (flat_map snd (group_by_video data)) (map frame_id data)).
  { unfold group_by_video. induction data as [|x data IH] using rev_ind;
      [apply Permutation_refl|].
    rewrite fold_left_app, map_app. simpl.
    eapply perm_trans; [apply add_frame_frames|].
    apply Permutation_app_tail, IH. }
  split; [exact Hperm|]. split.
  - apply group_by_video_nonempty.
  - rewrite <- (length_map frame_id data), <- (Permutation_length Hperm).
    clear. induction (group_by_video data) as [|[k frames] rest IH]; simpl;
      [reflexivity|].
    rewrite length_app, IH. reflexivity.
Qed.

End ExportShape.

(** ** What the normaliser keeps *)









(** ** Bounds and shape of search results *)

Section SearchShape.
Context {J : PyJson}.

Lemma flat_map_length_bound {A B} (f : A -> list B) (l : list A) (n : nat) :
  (forall a, List.length (f a) <= n) ->
  List.length (flat_map f l) <= n * List.length l.
Proof.
  intros H. induction l as [|a l IH]; simpl; [lia|].
  rewrite length_app. specialize (H a). lia.
Qed.

Lemma process_media_file_length (dbp : string) (root : option (fsnode Content))
    (q f : string) :
  List.length (process_media_file dbp root q f) <= 10.
Proof.
  unfold process_media_file.
  destruct (lookup (lookup root "media-info") f) as [[content|]|]; try (simpl; lia).
  destruct (json_load content) as [d|]; try (simpl; lia).
  cbv zeta. destruct (matches q d); try (simpl; lia).
  destruct (lookup (lookup root "keyframes") (fst (splitext f))) as [[c|kf]|];
    try (simpl; lia).
  simpl listdir. cbv iota. rewrite keyframe_records_length, length_firstn. lia.
Qed.

(** X21.  The cap is per metadata file: a file contributes at most ten
    records, exactly [min 10 n] when it matches and its keyframe directory
    lists [n] files ending in [.jpg], so a search returns at most ten times
    as many records as there are metadata files. *)
Theorem search_result_bounded (dbp : string) (root : option (fsnode Content))
    (q : string) (entries : list (string * fsnode Content)) :
  lookup root "media-info" = Some (Dir entries) ->
  (forall f, List.length (process_media_file dbp root q f) <= 10)
  /\ (forall f content doc kf,
        find_entry f entries = Some (File content) ->
        json_load content = Some doc ->
        matches q doc = true ->
        lookup (lookup root "keyframes") (fst (splitext f)) = Some (Dir kf) ->
        List.length (process_media_file dbp root q f)
        = Nat.min 10 (List.length (jpg_files (map fst kf))))
  /\ exists results,
       search_database_text dbp root q = Returned results
       /\ List.length results
          <= 10 * List.length (filter (fun f => endswith f ".json") (map fst entries)).
Proof.
  intros Hmi. split; [apply process_media_file_length|]. split.
  - intros f content doc kf Hf Hload Hmatch Hkf.
    unfold process_media_file. rewrite Hmi. simpl lookup at 1.
    rewrite Hf, Hload. cbv zeta. rewrite Hmatch, Hkf. simpl listdir. cbv iota.
    rewrite keyframe_records_length. apply length_firstn.
  - eexists. split.
    + unfold search_database_text. rewrite Hmi. reflexivity.
    + apply flat_map_length_bound. apply process_media_file_length.
Qed.

Lemma keyframe_records_shape (d : Doc) (v folder : string) (i : nat)
    (files : list string) (r : result) :
  In r (keyframe_records d v folder i files) ->
  exists file k,
    In file files /\ i <= k < i + List.length files
    /\ frame_id r = fst (splitext file)
    /\ video_name r = Some v
    /\ export_video_name r = (v ++ ".mp4")%string
    /\ frame_number r = Some k
    /\ keyframe_path r = Some (path_join folder file)
    /\ image_url r = None.
Proof.
  revert i. induction files as [|file files IH]; intros i; simpl; [tauto|].
  intros [<-|Hr].
  - exists file, i. simpl. repeat split; try reflexivity; try lia. left. reflexivity.
  - destruct (IH (S i) Hr) as (file' & k & Hin & Hk & H).
    exists file', k. split; [right; exact Hin|]. split; [lia|exact H].
Qed.

(** X22.  Every record of a dataset search names an existing keyframe:
    its path is [database/keyframes/<video>/<file>] for a file of that
    folder ending in [.jpg], its frame id is the file name without
    extension, its frame number is below ten, it carries no image URL, and
    the video name it is exported under is the video id followed by
    [.mp4]. *)
Theorem search_records_shape (dbp : string) (root : option (fsnode Content))
    (q : string) (results : list result) (r : result) :
  search_database_text dbp root q = Returned results ->
  In r results ->
  exists v kf file k,
    lookup (lookup root "keyframes") v = Some (Dir kf)
    /\ In file (map fst kf)
    /\ endswith file ".jpg" = true
    /\ k < 10
    /\ frame_id r = fst (splitext file)
    /\ video_name r = Some v
    /\ export_video_name r = (v ++ ".mp4")%string
    /\ frame_number r = Some k
    /\ keyframe_path r
       = Some (path_join (path_join (path_join dbp "keyframes") v) file)
    /\ image_url r = None.
Proof.
  unfold search_database_text.
  destruct (lookup root "media-info") as [[c|entries]|]; simpl; try discriminate.
  intros H Hr. inversion H; subst results; clear H.
  apply in_flat_map in Hr. destruct Hr as [f [_ Hr]].
  unfold process_media_file in Hr.
  destruct (lookup (lookup root "media-info") f) as [[content|]|]; try destruct Hr.
  destruct (json_load content) as [d|]; try destruct Hr.
  destruct (matches q d); try destruct Hr.
  destruct (lookup (lookup root "keyframes") (fst (splitext f))) as [[c|kf]|] eqn:Ekf;
    try destruct Hr.
  simpl listdir in Hr. cbv iota in Hr. apply keyframe_records_shape in Hr.
  destruct Hr as (file & k & Hin & Hk & Hrest).
  assert (Hlen : List.length (firstn 10 (jpg_files (map fst kf))) <= 10).
  { rewrite length_firstn. lia. }
  apply firstn_incl in Hin. apply filter_In in Hin.
  exists (fst (splitext f)), kf, file, k.
  split; [exact Ekf|]. split; [tauto|]. split; [tauto|]. split; [lia|exact Hrest].
Qed.

(** X23.  A metadata entry that cannot be used -- a directory named like a
    metadata file, a file that does not parse, or a video whose keyframe
    folder is missing or is not a directory -- is passed over: the search
    still returns, with the records of the entries listed before and after
    it. *)
Theorem unusable_entries_are_skipped (dbp : string) (root : option (fsnode Content))
    (q : string) (entries : list (string * fsnode Content))
    (before after : list string) (f : string) :
  lookup root "media-info" = Some (Dir entries) ->
  filter (fun f => endswith f ".json") (map fst entries) = before ++ f :: after ->
  match find_entry f entries with
  | Some (File content) =>
      match json_load content with
      | Some doc => isdir (lookup (lookup root "keyframes") (fst (splitext f))) = false
      | None => True
      end
  | _ => True
  end ->
  search_database_text dbp root q
  = Returned (flat_map (process_media_file dbp root q) before
              ++ flat_map (process_media_file dbp root q) after).
Proof.
  intros Hmi Hlist Hbad.
  assert (Hnil : process_media_file dbp root q f = []).
  { unfold process_media_file. rewrite Hmi. simpl lookup at 1.
    destruct (find_entry f entries) as [[content|]|]; try reflexivity.
    destruct (json_load content) as [d|]; try reflexivity.
    cbv zeta. destruct (matches q d); try reflexivity.
    destruct (lookup (lookup root "keyframes") (fst (splitext f))) as [[c|kf]|];
      try reflexivity.
    discriminate Hbad. }
  unfold search_database_text. rewrite Hmi. simpl listdir. cbv iota.
  rewrite Hlist, flat_map_app. simpl flat_map. rewrite Hnil. reflexivity.
Qed.

End SearchShape.

Lemma search_result_bounded_witness :
  exists results,
    search_database_text (J := json_documents) "db" two_video_store "cat"
    = Returned results
    /\ List.length results <= 20.
Proof.
  exact (proj2 (proj2 (search_result_bounded (J := json_documents)
                         "db" two_video_store "cat"
                         [ ("v1.json", File (Some (JDict [("title", JStr "cat video")])));
                           ("v2.json", File (Some (JDict [("title", JStr "cat show")]))) ]
                         eq_refl))).
Defined.

Lemma search_records_shape_witness :
  exists v kf file k,
    lookup (lookup example_store "keyframes") v = Some (Dir kf)
    /\ In file (map fst kf)
    /\ endswith file ".jpg" = true
    /\ k < 10
    /\ "003" = fst (splitext file)
    /\ Some "v1" = Some v.
Proof.
  pose (records := keyframe_records (J := json_documents)
                     (JDict [("title", JStr "cat video")]) "v1" "db/keyframes/v1" 0
                     (firstn 10 (jpg_files (map fst v1_keyframes)))).
  destruct (search_records_shape (J := json_documents) "db" example_store "cat"
              records (nth 2 records (mock_result 0)) eq_refl)
    as (v & kf & file & k & H1 & H2 & H3 & H4 & H5 & H6 & _).
  - apply nth_In. unfold records. rewrite keyframe_records_length.
    vm_compute. lia.
  - exists v, kf, file, k. repeat split; assumption.
Defined.

Lemma unusable_entries_are_skipped_witness :
  exists results,
    search_database_text (J := json_documents) "db" damaged_store "cat"
    = Returned results
    /\ List.length results = 10.
Proof.
  eexists. split.
  - apply (unusable_entries_are_skipped (J := json_documents) "db" damaged_store "cat"
             [ ("broken.json", File None);
               ("v1.json", File (Some (JDict [("title", JStr "cat video")])));
               ("sub.json", Dir []);
               ("v9.json", File (Some (JDict [("title", JStr "cat nine")]))) ]
             [] ["v1.json"; "sub.json"; "v9.json"] "broken.json" eq_refl eq_refl I).
  - reflexivity.
Defined.

(** ** Instances of the conditional properties *)

Lemma uploaded_txt_file_decides_search_witness :
  exists q,
    process_search "typed afterwards" (Some "/tmp/cat.png") (Returned "cat")
      {| retrieved_images := mock_results (J := json_documents);
         selected_images := [];
         current_task := KIS;
         answer_entry := "";
         uploaded_txt_file := Some "query-1-kis" |}
    = inr q
    /\ dispatch_search (J := json_documents) false "db" example_store q
       = call_backend_txt_file false "db" example_store (Returned "cat").
Proof.
  apply (uploaded_txt_file_decides_search (J := json_documents)).
  discriminate.
Defined.

Lemma blank_txt_file_matches_everything_witness :
  exists results,
    call_backend_txt_file (J := json_documents) false "db" example_store (Returned "  ")
    = Returned results
    /\ List.length results = 10.
Proof.
  eexists. split.
  - apply (proj1 (proj2 (blank_txt_file_matches_everything (J := json_documents)
                          "db" example_store "  " eq_refl))).
    reflexivity.
  - reflexivity.
Defined.

Lemma mock_mode_ignores_query_and_store_witness :
  dispatch_search (J := json_documents) true "nowhere" None
    {| q_text := Some "anything"; q_image_path := None; q_txt_file := None |}
  = Returned mock_results.
Proof.
  refine (proj1 (mock_mode_ignores_query_and_store (J := json_documents)
                   "nowhere" None
                   {| q_text := Some "anything"; q_image_path := None;
                      q_txt_file := None |}
                   mock_ui _)).
  right. split; [reflexivity|]. left. discriminate.
Defined.

Lemma toggle_selection_effect_witness :
  selected_images (toggle_selection "frame_0004" true mock_ui) = ["frame_0004"]
  /\ NoDup (selected_images (toggle_selection "frame_0004" true mock_ui)).
Proof.
  split; [reflexivity|].
  apply (proj1 (toggle_selection_effect mock_ui "frame_0004" true (NoDup_nil string))).
Defined.

Lemma shared_frame_id_selected_together_witness :
  let st := {| retrieved_images := [bare_record (J := json_documents) "v1" "001";
                                    bare_record "v2" "001"];
               selected_images := [];
               current_task := KIS;
               answer_entry := "";
               uploaded_txt_file := None |} in
  In ["v2"; "001"]
     (csv_rows KIS "" (selected_data (checkbox_command (bare_record "v1" "001") true st))).
Proof.
  intros st.
  refine (proj2 (proj2 (shared_frame_id_selected_together st
                          (bare_record "v1" "001") (bare_record "v2" "001") _ _ eq_refl))
                "").
  - left. reflexivity.
  - right. left. reflexivity.
Defined.
